(** * CircuitCanvas: circuit physics and electron-flow animation

    A shallow embedding of [src/components/CircuitCanvas.tsx] (with the
    [CircuitMode] and [CircuitState] declarations of [types.ts]) and the
    properties of its physics calculations and of its animation loop.

    Numbers.  A JavaScript [number] is an IEEE-754 binary64 value.  The
    file has it twice.  In the first embedding it is idealised as a real
    number: [+], [-], [*], [/] are the exact operations of [R] and
    [Math.exp] is the real exponential; rounding, overflow and the special
    values [Infinity], [-Infinity], [NaN] and [-0] are not represented, and
    no statement rests on the value of a quotient whose divisor is zero.
    The laws of the series and of the parallel circuit, the open switch,
    the animation loop and the viewers are stated there.  In the second
    embedding, module [Binary64], it is a primitive binary64 float with the
    rounded operations, and [Math.exp], which ECMAScript leaves to the
    implementation, is a parameter of which only the values that ECMAScript
    fixes are assumed.  The rc-delay circuit, the glow of the bulb and the
    validation of a configuration are stated there, since rounding,
    underflow and [NaN] decide them.  The string formatting of [toFixed]
    and the SVG markup are left out: a rendered number is modelled by the
    number that is formatted.

    The other components.  The handlers of [FullscreenViewer.tsx] (zoom and
    drag), [TiltCard.tsx] (tilt), [App.tsx] (navigation between the try-on
    results in fullscreen), [services/geminiService.ts] (data URLs, image
    extraction, chat request) and [ChatAssistant.tsx] (sending a message)
    are embedded in modules of their names.  A handler is a function from
    the values of the hooks before the event to their values after it, and
    events are handled one after the other, each in the state the one
    before left.  A string is its sequence of UTF-16 code units.  The
    remote model is a parameter: a function from the request to the
    completion of the call. *)

From Stdlib Require Import Reals Lra Lia ZArith NArith List Ascii String Bool.
From Stdlib Require Import Floats.

Set Warnings "-inexact-float".
Import ListNotations.

Open Scope R_scope.

(** ** The JavaScript operations the component uses *)

Module JS.

(** How an evaluation ends: normally with a value, or abruptly with a
    thrown error. *)
Inductive completion (A : Type) : Type :=
| Normal (value : A)
| Throw (message : string).
Arguments Normal {A} value.
Arguments Throw {A} message.

Definition Math_exp (x : R) : R := exp x.
Definition Math_min (x y : R) : R := Rmin x y.
Definition Math_max (x y : R) : R := Rmax x y.

(** The integer obtained from [x] by dropping its fractional part. *)
Definition truncate (x : R) : Z :=
  if Rle_dec 0 x then Int_part x else (- Int_part (- x))%Z.

(** [n % d] for a nonzero [d]: [n - d * q] where the integer [q] is the
    quotient [n / d] rounded towards zero, so that the result takes the
    sign of the dividend [n]. *)
Definition rem (n d : R) : R := n - d * IZR (truncate (n / d)).

End JS.

(** ** types.ts *)

Inductive CircuitMode : Set := series | parallel | rc_delay.

Record CircuitState : Type := {
  isSwitchClosed : bool;
  voltage : R;
  resistance1 : R;
  resistance2 : R;
  capacitance : R
}.

(** ** CircuitCanvas.tsx *)

Record CircuitCanvasProps : Type := {
  mode : CircuitMode;
  state : CircuitState;
  simTime : R
}.

(** The three variables the physics calculations assign. *)
Record Physics : Type := {
  current : R;
  bulb1Brightness : R;
  bulb2Brightness : R
}.

(** "Physics calculations for visualization": the three variables start at
    [0] and are assigned in the branch of the selected mode when the switch
    is closed. *)
Definition physics_calculations
    (mode : CircuitMode) (state : CircuitState) (simTime : R) : Physics :=
  if isSwitchClosed state then
    match mode with
    | series =>
        let Req := resistance1 state + resistance2 state in
        let current := voltage state / Req in
        {| current := current;
           bulb1Brightness := (current * resistance1 state) / 10;
           bulb2Brightness := (current * resistance2 state) / 10 |}
    | parallel =>
        let I1 := voltage state / resistance1 state in
        let I2 := voltage state / resistance2 state in
        {| current := I1 + I2;
           bulb1Brightness := I1 / 5;
           bulb2Brightness := I2 / 5 |}
    | rc_delay =>
        let R := resistance1 state in
        let C := capacitance state * 1e-6 in
        let tau := R * C in
        let instantaneousCurrent :=
          (voltage state / R) * JS.Math_exp ((- simTime) / tau) in
        {| current := instantaneousCurrent;
           bulb1Brightness := instantaneousCurrent * 5;
           bulb2Brightness := 0 |}
    end
  else
    {| current := 0; bulb1Brightness := 0; bulb2Brightness := 0 |}.

(** The number written next to the capacitor in the rc-delay drawing
    (before [toFixed(1)]).  It is computed in the markup, apart from the
    physics calculations and without looking at the switch. *)
Definition capacitorVoltage (state : CircuitState) (simTime : R) : R :=
  voltage state *
  (1 - JS.Math_exp ((- simTime) /
                    (resistance1 state * capacitance state * 1e-6))).

(** [Bulb]: the opacity of the glow. *)
Definition glowOpacity (brightness : R) : R :=
  JS.Math_min (JS.Math_max brightness 0.1) 1.

(** *** Animation loop for electrons *)

(** [useState(0)]: the offset the component is mounted with. *)
Definition initialOffset : R := 0.

(** "Speed proportional to current, but clamped". *)
Definition animate_speed (isSwitchClosed : bool) (current : R) : R :=
  if isSwitchClosed then JS.Math_min (current * 2) 10 else 0.

(** The update [prev => (prev - speed) % 1000] handed to [setOffset]. *)
Definition setOffset_update (speed prev : R) : R :=
  JS.rem (prev - speed) 1000.

(** One run of [animate]: the closure reads the switch and the current of
    the render that installed the effect and moves the offset once. *)
Definition animate (isSwitchClosed : bool) (current : R) (offset : R) : R :=
  let speed := animate_speed isSwitchClosed current in
  setOffset_update speed offset.

(** The offsets after each of a series of updates, oldest first. *)
Fixpoint offsets (speeds : list R) (offset : R) : list R :=
  match speeds with
  | [] => []
  | speed :: later =>
      let next := setOffset_update speed offset in
      next :: offsets later next
  end.

(** *** What a render returns *)

(** A dashed overlay path showing the flow. *)
Record Flow : Type := {
  strokeDashoffset : R;
  opacity : R
}.

Record Render : Type := {
  calculated : Physics;          (* the variables of this render *)
  flows : list Flow;             (* the overlay paths that are drawn *)
  bulbGlow : R;                  (* glow opacity of the bulb that is drawn *)
  capacitorLabel : option R;     (* "...V" next to the capacitor *)
  currentLabel : R               (* the total current in the overlay stats *)
}.

(** The body of the component for given props and the [offset] held by the
    [useState] hook. *)
Definition render (props : CircuitCanvasProps) (offset : R) : Render :=
  let mode := mode props in
  let state := state props in
  let simTime := simTime props in
  let p := physics_calculations mode state simTime in
  {| calculated := p;
     flows :=
       match mode with
       | series =>
           [ {| strokeDashoffset := offset;
                opacity := if isSwitchClosed state then 1 else 0 |} ]
       | parallel =>
           if isSwitchClosed state then
             [ {| strokeDashoffset := offset; opacity := 1 |};
               {| strokeDashoffset := offset * 0.8; opacity := 1 |} ]
           else []
       | rc_delay =>
           [ {| strokeDashoffset := offset;
                opacity := if isSwitchClosed state
                           then JS.Math_min (current p) 1 else 0 |} ]
       end;
     bulbGlow :=
       match mode with
       | series => glowOpacity (bulb1Brightness p)
       | parallel => glowOpacity (bulb2Brightness p)
       | rc_delay => glowOpacity (bulb1Brightness p)
       end;
     capacitorLabel :=
       match mode with
       | rc_delay => Some (capacitorVoltage state simTime)
       | _ => None
       end;
     currentLabel := current p |}.

(** The offset after the animation ran once under each of the given props
    in turn (the host may change the props between frames). *)
Fixpoint frames (renders : list CircuitCanvasProps) (offset : R) : R :=
  match renders with
  | [] => offset
  | props :: later =>
      let p := physics_calculations (mode props) (state props) (simTime props) in
      frames later (animate (isSwitchClosed (state props)) (current p) offset)
  end.

(** *** Sample configurations *)

(** 9 V over 100 and 200 ohm. *)
Definition scenarioA : CircuitState :=
  {| isSwitchClosed := true; voltage := 9;
     resistance1 := 100; resistance2 := 200; capacitance := 100 |}.

(** 5 V over 10 and 20 ohm. *)
Definition scenarioB : CircuitState :=
  {| isSwitchClosed := true; voltage := 5;
     resistance1 := 10; resistance2 := 20; capacitance := 100 |}.

(** 10 V, 1000 ohm and 100 microfarad, with the switch open. *)
Definition scenarioOpen : CircuitState :=
  {| isSwitchClosed := false; voltage := 10;
     resistance1 := 1000; resistance2 := 200; capacitance := 100 |}.

(** ** FullscreenViewer.tsx *)

Module FullscreenViewer.

Record Point : Type := { x : R; y : R }.

(** What the hooks of the component hold: [scale], [position] and
    [isDragging] from [useState], [dragStart] from [useRef]. *)
Record State : Type := {
  scale : R;
  position : Point;
  isDragging : bool;
  dragStart : Point
}.

Definition initial : State :=
  {| scale := 1;
     position := {| x := 0; y := 0 |};
     isDragging := false;
     dragStart := {| x := 0; y := 0 |} |}.

(** "Reset state when opening a new image": the effect that runs when
    [isOpen] or [imageUrl] changes. *)
Definition openEffect (isOpen : bool) (st : State) : State :=
  if isOpen then
    {| scale := 1;
       position := {| x := 0; y := 0 |};
       isDragging := isDragging st;
       dragStart := dragStart st |}
  else st.

Definition handleWheel (deltaY : R) (st : State) : State :=
  let delta := (- deltaY) * 0.001 in
  let newScale := JS.Math_min (JS.Math_max (scale st + delta) 0.5) 5 in
  {| scale := newScale;
     position := position st;
     isDragging := isDragging st;
     dragStart := dragStart st |}.

(** "Only drag if left click". *)
Definition handleMouseDown (button : Z) (clientX clientY : R) (st : State)
  : State :=
  if negb (button =? 0)%Z then st
  else
    {| scale := scale st;
       position := position st;
       isDragging := true;
       dragStart := {| x := clientX - x (position st);
                       y := clientY - y (position st) |} |}.

Definition handleMouseMove (clientX clientY : R) (st : State) : State :=
  if negb (isDragging st) then st
  else
    {| scale := scale st;
       position := {| x := clientX - x (dragStart st);
                      y := clientY - y (dragStart st) |};
       isDragging := isDragging st;
       dragStart := dragStart st |}.

Definition handleMouseUp (st : State) : State :=
  {| scale := scale st;
     position := position st;
     isDragging := false;
     dragStart := dragStart st |}.

Definition resetView (st : State) : State :=
  {| scale := 1;
     position := {| x := 0; y := 0 |};
     isDragging := isDragging st;
     dragStart := dragStart st |}.

(** What can happen to the open viewer.  [onMouseLeave] is bound to
    [handleMouseUp] as well. *)
Inductive Event : Type :=
| Wheel (deltaY : R)
| MouseDown (button : Z) (clientX clientY : R)
| MouseMove (clientX clientY : R)
| MouseUp
| MouseLeave
| ResetView
| Opened.

Definition handle (st : State) (e : Event) : State :=
  match e with
  | Wheel deltaY => handleWheel deltaY st
  | MouseDown button clientX clientY => handleMouseDown button clientX clientY st
  | MouseMove clientX clientY => handleMouseMove clientX clientY st
  | MouseUp => handleMouseUp st
  | MouseLeave => handleMouseUp st
  | ResetView => resetView st
  | Opened => openEffect true st
  end.

(** A series of events, each handled in the state the one before left. *)
Definition run (events : list Event) (st : State) : State :=
  fold_left handle events st.

(** Events that neither press the left button nor reset the view. *)
Definition passive (e : Event) : Prop :=
  match e with
  | MouseDown button _ _ => button <> 0%Z
  | ResetView | Opened => False
  | _ => True
  end.

End FullscreenViewer.

(** ** TiltCard.tsx *)

Module TiltCard.

(** The rectangle [getBoundingClientRect] returns. *)
Record DOMRect : Type := { left : R; top : R; width : R; height : R }.

Record Rotate : Type := { x : R; y : R }.

(** [cardRef] is [None] while the card is not mounted. *)
Definition handleMouseMove
    (cardRef : option DOMRect) (clientX clientY : R) (rotate : Rotate)
  : Rotate :=
  match cardRef with
  | None => rotate
  | Some rect =>
      let x := clientX - left rect in
      let y := clientY - top rect in
      let centerX := width rect / 2 in
      let centerY := height rect / 2 in
      let rotateX := ((y - centerY) / centerY) * -5 in
      let rotateY := ((x - centerX) / centerX) * 5 in
      {| x := rotateX; y := rotateY |}
  end.

Definition handleMouseLeave : Rotate := {| x := 0; y := 0 |}.

(** The two percentages of the [backgroundPosition] of the shine. *)
Definition backgroundPosition (rotate : Rotate) : R * R :=
  (50 + y rotate * 5, 50 + x rotate * 5).

End TiltCard.

(** ** JavaScript strings *)

Module JSString.

(** A string is its sequence of UTF-16 code units. *)
Definition t : Type := list N.

(** The string of an ASCII literal. *)
Definition lit (s : string) : t := map N_of_ascii (list_ascii_of_string s).

(** [a === b]. *)
Fixpoint eqb (a b : t) : bool :=
  match a, b with
  | [], [] => true
  | c :: a', d :: b' => (c =? d)%N && eqb a' b'
  | _, _ => false
  end.

(** A string is truthy unless it is empty. *)
Definition truthy (s : t) : bool :=
  match s with [] => false | _ :: _ => true end.

(** [s] without its prefix [p], when it starts with [p]. *)
Fixpoint strip_prefix (p s : t) : option t :=
  match p, s with
  | [], _ => Some s
  | c :: p', d :: s' => if (c =? d)%N then strip_prefix p' s' else None
  | _ :: _, [] => None
  end.

(** The code units [trim] removes: white space and line terminators. *)
Definition isWhiteSpace (c : N) : bool :=
  ((c =? 9) || (c =? 10) || (c =? 11) || (c =? 12) || (c =? 13) ||
   (c =? 32) || (c =? 160) || (c =? 5760) ||
   ((8192 <=? c) && (c <=? 8202)) ||
   (c =? 8232) || (c =? 8233) || (c =? 8239) || (c =? 8287) ||
   (c =? 12288) || (c =? 65279))%N.

Fixpoint dropWhile (p : N -> bool) (s : t) : t :=
  match s with
  | [] => []
  | c :: s' => if p c then dropWhile p s' else s
  end.

(** [s.trim()]. *)
Definition trim (s : t) : t :=
  rev (dropWhile isWhiteSpace (rev (dropWhile isWhiteSpace s))).

End JSString.

(** Reading [array[i]]: [undefined] outside the array. *)
Definition array_get {A : Type} (array : list A) (i : Z) : option A :=
  if (i <? 0)%Z then None else nth_error array (Z.to_nat i).

(** [array.findIndex(p)]: the first index whose element satisfies [p], or
    -1. *)
Fixpoint findIndex {A : Type} (p : A -> bool) (array : list A) : Z :=
  match array with
  | [] => -1
  | a :: rest =>
      if p a then 0
      else let i := findIndex p rest in
           if (i =? -1)%Z then -1 else (i + 1)%Z
  end.

(** ** App.tsx *)

Module App.

Inductive ViewAngle : Set :=
  front | back | left45 | right45 | left90 | right90.

Inductive AssetType : Set := person | garment | result.

Record ImageAsset : Type := {
  id : JSString.t;
  url : JSString.t;
  type : AssetType;
  prompt : option JSString.t
}.

Inductive Step : Set := step1 | step2 | step3.

Record AppState : Type := {
  selectedPerson : option ImageAsset;
  selectedGarment : option ImageAsset;
  tryOnResults : option (ViewAngle -> ImageAsset);
  isGenerating : bool;
  step : Step;
  viewAngle : ViewAngle
}.

(** The ids of [VIEW_ANGLES], in its order. *)
Definition VIEW_ANGLES : list ViewAngle :=
  [front; left45; right45; left90; right90; back].

(** The [useState] hooks of the component that the fullscreen navigation
    reads or writes. *)
Record Hooks : Type := {
  state : AppState;
  fullscreenImage : option JSString.t
}.

Definition setViewAngle (angle : ViewAngle) (s : AppState) : AppState :=
  {| selectedPerson := selectedPerson s;
     selectedGarment := selectedGarment s;
     tryOnResults := tryOnResults s;
     isGenerating := isGenerating s;
     step := step s;
     viewAngle := angle |}.

(** "Determine if we are currently viewing the result set in
    fullscreen". *)
Definition isViewingResults (h : Hooks) : bool :=
  match tryOnResults (state h), fullscreenImage h with
  | Some results, Some image =>
      JSString.truthy image &&
      existsb (fun angle => JSString.eqb (url (results angle)) image)
              VIEW_ANGLES
  | _, _ => false
  end.

Inductive Direction : Set := left | right.

(** [handleFullscreenNav]: the hooks after the call.  Reading [.id] of a
    missing element of [VIEW_ANGLES] would throw a [TypeError]. *)
Definition handleFullscreenNav (direction : Direction) (h : Hooks)
  : JS.completion Hooks :=
  if negb (isViewingResults h) then JS.Normal h
  else
    match tryOnResults (state h), fullscreenImage h with
    | Some results, Some image =>
        let currentIndex :=
          findIndex (fun angle => JSString.eqb (url (results angle)) image)
                    VIEW_ANGLES in
        if (currentIndex =? -1)%Z then JS.Normal h
        else
          let length := Z.of_nat (List.length VIEW_ANGLES) in
          let nextIndex :=
            match direction with
            | left => Z.rem (currentIndex - 1 + length) length
            | right => Z.rem (currentIndex + 1) length
            end in
          match array_get VIEW_ANGLES nextIndex with
          | None => JS.Throw "TypeError"
          | Some nextAngleId =>
              let nextUrl := url (results nextAngleId) in
              JS.Normal {| state := setViewAngle nextAngleId (state h);
                           fullscreenImage := Some nextUrl |}
          end
    | _, _ => JS.Normal h
    end.

(** Several navigations one after the other. *)
Fixpoint navigate (directions : list Direction) (h : Hooks)
  : JS.completion Hooks :=
  match directions with
  | [] => JS.Normal h
  | direction :: later =>
      match handleFullscreenNav direction h with
      | JS.Normal h' => navigate later h'
      | JS.Throw message => JS.Throw message
      end
  end.

End App.

(** The neighbour of an angle in [App.VIEW_ANGLES], going round. *)
Definition neighbour (direction : App.Direction) (angle : App.ViewAngle)
  : App.ViewAngle :=
  match direction, angle with
  | App.right, App.front => App.left45
  | App.right, App.left45 => App.right45
  | App.right, App.right45 => App.left90
  | App.right, App.left90 => App.right90
  | App.right, App.right90 => App.back
  | App.right, App.back => App.front
  | App.left, App.front => App.back
  | App.left, App.left45 => App.front
  | App.left, App.right45 => App.left45
  | App.left, App.left90 => App.right45
  | App.left, App.right90 => App.left90
  | App.left, App.back => App.right90
  end.

(** Six results whose URLs differ: the URL of an angle is one code unit,
    the digit of its place in [App.VIEW_ANGLES]. *)
Definition sampleResults (angle : App.ViewAngle) : App.ImageAsset :=
  {| App.id := [];
     App.url :=
       match angle with
       | App.front => JSString.lit "0"
       | App.left45 => JSString.lit "1"
       | App.right45 => JSString.lit "2"
       | App.left90 => JSString.lit "3"
       | App.right90 => JSString.lit "4"
       | App.back => JSString.lit "5"
       end;
     App.type := App.result;
     App.prompt := None |}.

(** The hooks while the front result of [sampleResults] is shown in
    fullscreen. *)
Definition sampleHooks : App.Hooks :=
  {| App.state :=
       {| App.selectedPerson := None;
          App.selectedGarment := None;
          App.tryOnResults := Some sampleResults;
          App.isGenerating := false;
          App.step := App.step3;
          App.viewAngle := App.front |};
     App.fullscreenImage := Some (JSString.lit "0") |}.

(** ** services/geminiService.ts *)

Module geminiService.

(** The alternatives of the pattern
    [^data:image\/(png|jpeg|jpg|webp);base64,], in its order. *)
Definition alternatives : list JSString.t :=
  map JSString.lit ["png"%string; "jpeg"%string; "jpg"%string; "webp"%string].

(** What follows an alternative that matches up to [;base64,]; the pattern
    tries the alternatives from left to right. *)
Fixpoint strip_alternative (alts : list JSString.t) (rest : JSString.t)
  : option JSString.t :=
  match alts with
  | [] => None
  | alt :: others =>
      match JSString.strip_prefix (alt ++ JSString.lit ";base64,") rest with
      | Some payload => Some payload
      | None => strip_alternative others rest
      end
  end.

(** "Helper to clean base64 string": the match of the pattern at the start
    of [data], if there is one, is replaced by the empty string. *)
Definition cleanBase64 (data : JSString.t) : JSString.t :=
  match JSString.strip_prefix (JSString.lit "data:image/") data with
  | Some rest =>
      match strip_alternative alternatives rest with
      | Some payload => payload
      | None => data
      end
  | None => data
  end.

(** [getClient]: the key the client is made with; [API_KEY] is
    [process.env.API_KEY]. *)
Definition getClient (API_KEY : option JSString.t)
  : JS.completion JSString.t :=
  match API_KEY with
  | Some apiKey =>
      if JSString.truthy apiKey then JS.Normal apiKey
      else JS.Throw "API Key not found"
  | None => JS.Throw "API Key not found"
  end.

(** The parts of a request or of a response that the service reads. *)
Record InlineData : Type := {
  mimeType : option JSString.t;
  data : option JSString.t
}.

Record Part : Type := {
  text : option JSString.t;
  inlineData : option InlineData
}.

Inductive Role : Set := user | model.

Record Content : Type := {
  role : option Role;
  parts : list Part
}.

(** A candidate of a response.  The service reads
    [candidate.content.parts]; the answer of the model may come without
    either. *)
Record CandidateContent : Type := {
  candidateParts : option (list Part)
}.

Record Candidate : Type := {
  content : option CandidateContent
}.

Record Response : Type := {
  candidates : option (list Candidate);
  responseText : option JSString.t      (* [response.text] *)
}.

(** [candidate.content.parts], where both are there. *)
Definition partsOf (candidate : Candidate) : option (list Part) :=
  match content candidate with
  | Some c => candidateParts c
  | None => None
  end.

Record Request (Config : Type) : Type := {
  requestModel : string;
  contents : list Content;
  config : Config
}.
Arguments requestModel {Config} _.
Arguments contents {Config} _.
Arguments config {Config} _.

Definition textPart (s : JSString.t) : Part :=
  {| text := Some s; inlineData := None |}.

(** The data URL made of a part that carries image data. *)
Definition imageOfPart (part : Part) : option JSString.t :=
  match inlineData part with
  | Some inline =>
      match data inline with
      | Some bytes =>
          if JSString.truthy bytes then
            let mime :=
              match mimeType inline with
              | Some m => if JSString.truthy m then m
                          else JSString.lit "image/png"
              | None => JSString.lit "image/png"
              end in
            Some (JSString.lit "data:" ++ mime ++
                  JSString.lit ";base64," ++ bytes)
          else None
      | None => None
      end
  | None => None
  end.

(** A part gives no image when it has no inline data, or inline
    data without data or with empty data. *)
Definition carriesNoImage (part : Part) : Prop :=
  match inlineData part with
  | None => True
  | Some inline => data inline = None \/ data inline = Some []
  end.

(** "Extract image": the two nested loops return at the first part with
    image data. *)
Fixpoint imageOfParts (ps : list Part) : option JSString.t :=
  match ps with
  | [] => None
  | part :: rest =>
      match imageOfPart part with
      | Some image => Some image
      | None => imageOfParts rest
      end
  end.

(** The outer loop.  Reading [.parts] of a missing [content], or iterating
    over missing [parts], throws a [TypeError]. *)
Fixpoint imageOfCandidates (cs : list Candidate)
  : JS.completion (option JSString.t) :=
  match cs with
  | [] => JS.Normal None
  | candidate :: rest =>
      match partsOf candidate with
      | None => JS.Throw "TypeError"
      | Some ps =>
          match imageOfParts ps with
          | Some image => JS.Normal (Some image)
          | None => imageOfCandidates rest
          end
      end
  end.

(** [generateImageAsset].  [generateContent] stands for the remote model:
    the completion of the call for a request.  An error in the [try] block
    is logged and thrown again. *)
Definition generateImageAsset
    (API_KEY : option JSString.t)
    (generateContent : Request unit -> JS.completion Response)
    (prompt : JSString.t) : JS.completion JSString.t :=
  match getClient API_KEY with
  | JS.Throw message => JS.Throw message
  | JS.Normal _ =>
      match generateContent
              {| requestModel := "gemini-2.5-flash-image"%string;
                 contents := [ {| role := None;
                                  parts := [textPart prompt] |} ];
                 config := tt |} with
      | JS.Throw message => JS.Throw message
      | JS.Normal response =>
          let cs := match candidates response with
                    | Some cs => cs
                    | None => []
                    end in
          match imageOfCandidates cs with
          | JS.Normal (Some image) => JS.Normal image
          | JS.Normal None => JS.Throw "No image generated"
          | JS.Throw message => JS.Throw message
          end
      end
  end.

(** The request of [sendMessageToGemini]: the history followed by the new
    message of the user.  The text of the system instruction holds numbers
    formatted as strings and is left as a parameter. *)
Definition chatRequest
    (systemInstruction : JSString.t)
    (message : JSString.t) (history : list Content) : Request JSString.t :=
  {| requestModel := "gemini-2.5-flash"%string;
     contents := history ++ [ {| role := Some user;
                                 parts := [textPart message] |} ];
     config := systemInstruction |}.

Definition sendMessageToGemini
    (API_KEY : option JSString.t)
    (generateContent : Request JSString.t -> JS.completion Response)
    (systemInstruction : JSString.t)
    (message : JSString.t) (history : list Content)
  : JS.completion JSString.t :=
  match getClient API_KEY with
  | JS.Throw message => JS.Throw message
  | JS.Normal _ =>
      match generateContent (chatRequest systemInstruction message history) with
      | JS.Throw message => JS.Throw message
      | JS.Normal response =>
          JS.Normal
            match responseText response with
            | Some answer =>
                if JSString.truthy answer then answer
                else JSString.lit "I couldn't understand that."
            | None => JSString.lit "I couldn't understand that."
            end
      end
  end.

End geminiService.

(** ** ChatAssistant.tsx *)

Module ChatAssistant.

Record ChatMessage : Type := {
  role : geminiService.Role;
  text : JSString.t;
  isError : option bool
}.

(** The [useState] hooks of the component. *)
Record State : Type := {
  messages : list ChatMessage;
  input : JSString.t;
  isLoading : bool
}.

(** The code units of the greeting the chat starts with. *)
Definition greeting : JSString.t :=
  [20320; 22909; 65281; 25105; 26159; 23433; 22521; 65292; 20320; 30340;
   29289; 29702; 21161; 25945; 12290; 20851; 20110; 36825; 20010; 30005;
   36335; 65292; 20320; 21487; 20197; 38382; 25105; 20219; 20309; 38382;
   39064; 65281]%N.

(** The code units of the text shown when the request failed. *)
Definition errorText : JSString.t :=
  [25265; 27465; 65292; 36830; 25509; 31070; 32463; 32593; 32476; 26102;
   20986; 29616; 38169; 35823; 12290]%N.

Definition initial : State :=
  {| messages := [ {| role := geminiService.model;
                      text := greeting;
                      isError := None |} ];
     input := [];
     isLoading := false |}.

(** "Convert internal ChatMessage to Gemini Content type". *)
Definition toContent (m : ChatMessage) : geminiService.Content :=
  {| geminiService.role := Some (role m);
     geminiService.parts := [geminiService.textPart (text m)] |}.

(** [handleSend] up to the [await]: nothing when the input is blank or a
    request is under way; else the hooks after the three updates and the
    arguments handed to [sendMessageToGemini]. *)
Definition handleSend_begin (st : State)
  : option (State * (JSString.t * list geminiService.Content)) :=
  if (negb (JSString.truthy (JSString.trim (input st))) || isLoading st)%bool
  then None
  else
    let userMsg := {| role := geminiService.user;
                      text := input st;
                      isError := None |} in
    let history := map toContent (messages st) in
    Some ({| messages := messages st ++ [userMsg];
             input := [];
             isLoading := true |},
          (input st, history)).

(** [handleSend] from the [await] on: the answer or, if the call failed,
    the error text is appended, and loading ends. *)
Definition handleSend_settle
    (outcome : JS.completion JSString.t) (st : State) : State :=
  let reply :=
    match outcome with
    | JS.Normal responseText =>
        {| role := geminiService.model;
           text := responseText;
           isError := None |}
    | JS.Throw _ =>
        {| role := geminiService.model;
           text := errorText;
           isError := Some true |}
    end in
  {| messages := messages st ++ [reply];
     input := input st;
     isLoading := false |}.

(** The chat with the request that is under way, if any. *)
Record Chat : Type := {
  hooks : State;
  pending : option (JSString.t * list geminiService.Content)
}.

Definition mounted : Chat := {| hooks := initial; pending := None |}.

Inductive Event : Type :=
| SetInput (value : JSString.t)     (* typing, or a suggested question *)
| Send                              (* the button, or Enter *)
| Settle (outcome : JS.completion JSString.t).

Definition handle (c : Chat) (e : Event) : Chat :=
  match e with
  | SetInput value =>
      {| hooks := {| messages := messages (hooks c);
                     input := value;
                     isLoading := isLoading (hooks c) |};
         pending := pending c |}
  | Send =>
      match handleSend_begin (hooks c) with
      | None => c
      | Some (st, request) => {| hooks := st; pending := Some request |}
      end
  | Settle outcome =>
      match pending c with
      | None => c
      | Some _ =>
          {| hooks := handleSend_settle outcome (hooks c); pending := None |}
      end
  end.

Definition run (events : list Event) (c : Chat) : Chat :=
  fold_left handle events c.

(** The roles of a transcript take turns, beginning with [first]. *)
Fixpoint takesTurns (first : geminiService.Role) (ms : list ChatMessage)
  : Prop :=
  match ms with
  | [] => True
  | m :: rest =>
      role m = first /\
      takesTurns match first with
                 | geminiService.user => geminiService.model
                 | geminiService.model => geminiService.user
                 end rest
  end.

(** The other role. *)
Definition other (r : geminiService.Role) : geminiService.Role :=
  match r with
  | geminiService.user => geminiService.model
  | geminiService.model => geminiService.user
  end.

(** What holds of the chat at any time: the roles take turns from the
    greeting on, the transcript ends with a question exactly while a request
    is under way, and that is exactly while the chat is loading. *)
Definition settled (c : Chat) : Prop :=
  takesTurns geminiService.model (messages (hooks c)) /\
  Nat.even (List.length (messages (hooks c))) = isLoading (hooks c) /\
  (isLoading (hooks c) = true <-> pending c <> None).

End ChatAssistant.

(** A card of 350 by 500 pixels at the corner of the window. *)
Definition sampleRect : TiltCard.DOMRect :=
  {| TiltCard.left := 0; TiltCard.top := 0;
     TiltCard.width := 350; TiltCard.height := 500 |}.

(** A response part with four code units of image data and no mime type,
    after a part with text only. *)
Definition sampleImagePart : geminiService.Part :=
  {| geminiService.text := None;
     geminiService.inlineData :=
       Some {| geminiService.mimeType := None;
               geminiService.data := Some (JSString.lit "AAAA") |} |}.

Definition sampleCandidate : geminiService.Candidate :=
  {| geminiService.content :=
       Some {| geminiService.candidateParts :=
                 Some [ geminiService.textPart (JSString.lit "ok");
                        sampleImagePart ] |} |}.

Definition sampleImageResponse : geminiService.Response :=
  {| geminiService.candidates := Some [sampleCandidate];
     geminiService.responseText := None |}.

(** A candidate that came without content, before [sampleCandidate]. *)
Definition sampleBrokenResponse : geminiService.Response :=
  {| geminiService.candidates :=
       Some [ {| geminiService.content := None |}; sampleCandidate ];
     geminiService.responseText := None |}.

(** A response without candidates and without text. *)
Definition sampleEmptyResponse : geminiService.Response :=
  {| geminiService.candidates := None;
     geminiService.responseText := None |}.

(** The chat after "hi" was typed. *)
Definition sampleChatState : ChatAssistant.State :=
  {| ChatAssistant.messages := ChatAssistant.messages ChatAssistant.initial;
     ChatAssistant.input := JSString.lit "hi";
     ChatAssistant.isLoading := false |}.

(** ** The numbers as the code has them: binary64 *)

(** The physics calculations, the capacitor label and the bulb once more,
    with every number a binary64 value and every operation the rounded one
    of JavaScript.  [Math.exp] is approximated as the implementation
    chooses; it is a parameter, of which only the values that ECMAScript
    fixes are assumed. *)
Module Binary64.

Local Open Scope float_scope.

(** [CircuitState] of [types.ts]. *)
Record CircuitState : Type := {
  isSwitchClosed : bool;
  voltage : float;
  resistance1 : float;
  resistance2 : float;
  capacitance : float
}.

Record Physics : Type := {
  current : float;
  bulb1Brightness : float;
  bulb2Brightness : float
}.


Definition isPositiveZero (x : float) : bool :=
  match classify x with PZero => true | _ => false end.

Definition isNegativeZero (x : float) : bool :=
  match classify x with NZero => true | _ => false end.

(** [Math.max(x, y)]: [NaN] if either is; [+0] counts as larger than
    [-0]. *)
Definition Math_max (x y : float) : float :=
  if is_nan x || is_nan y then nan
  else if isNegativeZero x && isPositiveZero y then y
  else if x <? y then y else x.

(** [Math.min(x, y)]: [NaN] if either is; [-0] counts as smaller than
    [+0]. *)
Definition Math_min (x y : float) : float :=
  if is_nan x || is_nan y then nan
  else if isPositiveZero x && isNegativeZero y then y
  else if y <? x then y else x.

(** [Bulb]: the opacity of the glow. *)
Definition glowOpacity (brightness : float) : float :=
  Math_min (Math_max brightness 0.1) 1.

Section Evaluator.

Variable Math_exp : float -> float.

(** "Physics calculations for visualization". *)
Definition physics_calculations
    (mode : CircuitMode) (state : CircuitState) (simTime : float) : Physics :=
  if isSwitchClosed state then
    match mode with
    | series =>
        let Req := resistance1 state + resistance2 state in
        let current := voltage state / Req in
        {| current := current;
           bulb1Brightness := (current * resistance1 state) / 10;
           bulb2Brightness := (current * resistance2 state) / 10 |}
    | parallel =>
        let I1 := voltage state / resistance1 state in
        let I2 := voltage state / resistance2 state in
        {| current := I1 + I2;
           bulb1Brightness := I1 / 5;
           bulb2Brightness := I2 / 5 |}
    | rc_delay =>
        let R := resistance1 state in
        let C := capacitance state * 1e-6 in
        let tau := R * C in
        let instantaneousCurrent :=
          (voltage state / R) * Math_exp ((- simTime) / tau) in
        {| current := instantaneousCurrent;
           bulb1Brightness := instantaneousCurrent * 5;
           bulb2Brightness := 0 |}
    end
  else
    {| current := 0; bulb1Brightness := 0; bulb2Brightness := 0 |}.

(** The number written next to the capacitor (before [toFixed(1)]). *)
Definition capacitorVoltage (state : CircuitState) (simTime : float) : float :=
  voltage state *
  (1 - Math_exp ((- simTime) /
                 (resistance1 state * capacitance state * 1e-6))).




End Evaluator.

(** 10 V, 1000 ohm and 100 microfarad. *)
Definition scenarioC : CircuitState :=
  {| isSwitchClosed := true; voltage := 10;
     resistance1 := 1000; resistance2 := 200; capacitance := 100 |}.



(** [scenarioC] with the switch open. *)
Definition scenarioCOpen : CircuitState :=
  {| isSwitchClosed := false; voltage := 10;
     resistance1 := 1000; resistance2 := 200; capacitance := 100 |}.

(** 100 ohm and 100 microfarad. *)
Definition hundredOhm : CircuitState :=
  {| isSwitchClosed := true; voltage := 10;
     resistance1 := 100; resistance2 := 200; capacitance := 100 |}.



(** A function with the values that ECMAScript fixes for [Math.exp], to
    run the theorems on; elsewhere it is not the exponential. *)
Definition standInExp (x : float) : float :=
  if is_nan x then nan
  else if x =? 0 then 1
  else if x =? infinity then infinity
  else if x =? neg_infinity then 0
  else 1 + x.

End Binary64.

(** ** Properties of the physics calculations *)

Section Evaluator.

Variable s : CircuitState.
Variable t : R.

(** C1.  Series circuit, switch closed, positive voltage and resistances:
    the current is [voltage / (resistance1 + resistance2)] and the two
    brightness values are [(current * resistance1) / 10] and
    [(current * resistance2) / 10], whatever the elapsed time; 9 V over
    100 and 200 ohm gives 0.03 A and the brightness values 0.3 and 0.6. *)
Theorem series_closed_law :
  isSwitchClosed s = true ->
  0 < voltage s -> 0 < resistance1 s -> 0 < resistance2 s ->
  let p := physics_calculations series s t in
  (current p = voltage s / (resistance1 s + resistance2 s) /\
   bulb1Brightness p = (current p * resistance1 s) / 10 /\
   bulb2Brightness p = (current p * resistance2 s) / 10) /\
  (voltage s = 9 -> resistance1 s = 100 -> resistance2 s = 200 ->
   current p = 0.03 /\ bulb1Brightness p = 0.3 /\ bulb2Brightness p = 0.6).
Proof.
  intros Hclosed HV HR1 HR2 p.
  subst p. unfold physics_calculations. rewrite Hclosed. cbn.
  split.
  - repeat split; reflexivity.
  - intros -> -> ->. repeat split; lra.
Qed.

(** C2.  Parallel circuit, switch closed, positive voltage and
    resistances: the branch currents are [voltage / resistance1] and
    [voltage / resistance2], the total current is their sum and the
    brightness values are a fifth of the branch currents, whatever the
    elapsed time; 5 V over 10 and 20 ohm gives 0.5 A and 0.25 A, in total
    0.75 A, and the brightness values 0.1 and 0.05. *)
Theorem parallel_closed_law :
  isSwitchClosed s = true ->
  0 < voltage s -> 0 < resistance1 s -> 0 < resistance2 s ->
  let p := physics_calculations parallel s t in
  let I1 := voltage s / resistance1 s in
  let I2 := voltage s / resistance2 s in
  (current p = I1 + I2 /\
   bulb1Brightness p = I1 / 5 /\
   bulb2Brightness p = I2 / 5) /\
  (voltage s = 5 -> resistance1 s = 10 -> resistance2 s = 20 ->
   I1 = 0.5 /\ I2 = 0.25 /\ current p = 0.75 /\
   bulb1Brightness p = 0.1 /\ bulb2Brightness p = 0.05).
Proof.
  intros Hclosed HV HR1 HR2 p I1 I2.
  subst p I1 I2. unfold physics_calculations. rewrite Hclosed. cbn.
  split.
  - repeat split; reflexivity.
  - intros -> -> ->. repeat split; lra.
Qed.

End Evaluator.

(** *** The rc-delay circuit in exact arithmetic *)

(** What the formulas of the rc-delay circuit give when no operation
    rounds and the exponential is the real one.  The code computes in
    binary64; what holds there is stated further down. *)

(** The decaying exponential is below the reciprocal. *)
Lemma exp_opp_lt_inv (x : R) : 0 < x -> exp (- x) < / x.
Proof.
  intros Hx.
  rewrite exp_Ropp.
  apply Rinv_lt_contravar.
  - apply Rmult_lt_0_compat; [assumption | apply exp_pos].
  - pose proof (exp_ineq1 x ltac:(lra)). lra.
Qed.

(** In exact arithmetic the time constant of the physics calculations and
    the one written out in the capacitor label are the same number (as
    binary64 values they can differ in the last place). *)
Lemma tau_assoc (s : CircuitState) :
  resistance1 s * capacitance s * 1e-6 =
  resistance1 s * (capacitance s * 1e-6).
Proof. ring. Qed.

Lemma tau_pos (s : CircuitState) :
  0 < resistance1 s -> 0 < capacitance s ->
  0 < resistance1 s * (capacitance s * 1e-6).
Proof. intros HR HC. nra. Qed.

Lemma rc_current (s : CircuitState) (t : R) :
  isSwitchClosed s = true ->
  current (physics_calculations rc_delay s t) =
  (voltage s / resistance1 s) *
  exp ((- t) / (resistance1 s * (capacitance s * 1e-6))).
Proof.
  intros Hclosed. unfold physics_calculations. rewrite Hclosed. reflexivity.
Qed.

Section RcDelay.

Variable s : CircuitState.
Hypothesis closed : isSwitchClosed s = true.
Hypothesis voltage_pos : 0 < voltage s.
Hypothesis resistance1_pos : 0 < resistance1 s.
Hypothesis capacitance_pos : 0 < capacitance s.

Let tau : R := resistance1 s * (capacitance s * 1e-6).

(** In exact arithmetic (no rounding, the real exponential) the capacitor
    voltage shown and the voltage across the resistor add up to the battery
    voltage.  The binary64 operations of the code round, and there the sum
    can miss the battery voltage. *)
Lemma rc_delay_kirchhoff_exact (t : R) :
  0 <= t ->
  capacitorVoltage s t +
  current (physics_calculations rc_delay s t) * resistance1 s = voltage s.
Proof using closed voltage_pos resistance1_pos capacitance_pos.
  intros Ht.
  rewrite (rc_current s t closed).
  unfold capacitorVoltage, JS.Math_exp. rewrite tau_assoc.
  field. lra.
Qed.

(** In exact arithmetic (no rounding, the real exponential) the current
    strictly decreases with the elapsed time over [t >= 0] and tends to 0
    as the time grows without bound.  In binary64 the exponential
    underflows and the current is 0 from some time on. *)
Lemma rc_delay_current_decays_exact :
  (forall t1 t2 : R, 0 <= t1 -> t1 < t2 ->
     current (physics_calculations rc_delay s t2) <
     current (physics_calculations rc_delay s t1)) /\
  (forall eps : R, 0 < eps ->
     exists T : R, 0 <= T /\
       forall t : R, T < t ->
         Rdist (current (physics_calculations rc_delay s t)) 0 < eps).
Proof using closed voltage_pos resistance1_pos capacitance_pos.
  assert (Htau : 0 < tau) by (apply tau_pos; assumption).
  assert (HK : 0 < voltage s / resistance1 s)
    by (apply Rdiv_lt_0_compat; assumption).
  split.
  - intros t1 t2 _ Hlt.
    rewrite !(rc_current s _ closed). fold tau.
    apply Rmult_lt_compat_l; [exact HK |].
    apply exp_increasing.
    unfold Rdiv. apply Rmult_lt_compat_r; [apply Rinv_0_lt_compat; exact Htau | lra].
  - intros eps Heps.
    set (K := voltage s / resistance1 s) in *.
    exists (K * tau / eps).
    assert (HT : 0 < K * tau / eps).
    { apply Rdiv_lt_0_compat; [apply Rmult_lt_0_compat |]; assumption. }
    split; [lra |].
    intros t Ht.
    assert (Htpos : 0 < t) by lra.
    rewrite (rc_current s t closed). fold tau. fold K.
    assert (Hx : 0 < t / tau) by (apply Rdiv_lt_0_compat; assumption).
    assert (Harg : (- t) / tau = - (t / tau)) by (field; lra).
    rewrite Harg.
    pose proof (exp_opp_lt_inv (t / tau) Hx) as Hexp.
    pose proof (exp_pos (- (t / tau))) as Hepos.
    unfold Rdist. rewrite Rminus_0_r.
    rewrite Rabs_pos_eq by (apply Rmult_le_pos; lra).
    apply Rlt_trans with (K * / (t / tau)).
    + apply Rmult_lt_compat_l; assumption.
    + assert (Hinv : K * / (t / tau) = K * tau / t) by (field; lra).
      rewrite Hinv.
      apply (Rmult_lt_reg_r t); [exact Htpos |].
      replace (K * tau / t * t) with (K * tau) by (field; lra).
      apply (Rmult_lt_reg_r (/ eps)); [apply Rinv_0_lt_compat; exact Heps |].
      replace (eps * t * / eps) with t by (field; lra).
      exact Ht.
Qed.

End RcDelay.

(** ** Binary64: comparisons and special values *)

Section Binary64Facts.

Import Binary64.
Local Open Scope float_scope.

(** The comparison of the specification is antisymmetric. *)
Lemma SFcompare_antisym (x y : spec_float) :
  SFcompare y x =
  match SFcompare x y with Some c => Some (CompOpp c) | None => None end.
Proof.
  destruct x as [sx | sx | | sx mx ex], y as [sy | sy | | sy my ey]; cbn;
    try reflexivity; try (destruct sx; reflexivity);
    try (destruct sy; reflexivity); try (destruct sx, sy; reflexivity).
  destruct sx, sy; cbn; try reflexivity.
  - rewrite (Z.compare_antisym ex ey). destruct (ex ?= ey)%Z; cbn; try reflexivity.
    pose proof (Pos.compare_cont_antisym mx my Eq) as H. cbn in H.
    rewrite <- H. destruct (Pos.compare_cont Eq mx my); reflexivity.
  - rewrite (Z.compare_antisym ex ey). destruct (ex ?= ey)%Z; cbn; try reflexivity.
    pose proof (Pos.compare_cont_antisym mx my Eq) as H. cbn in H.
    rewrite <- H. destruct (Pos.compare_cont Eq mx my); reflexivity.
Qed.

Lemma is_nan_spec (x : float) :
  is_nan x = match Prim2SF x with S754_nan => true | _ => false end.
Proof.
  unfold is_nan. rewrite FloatAxioms.eqb_spec. unfold SFeqb.
  destruct (Prim2SF x) as [s | s | | s m e]; cbn; try reflexivity.
  - destruct s; reflexivity.
  - destruct s; cbn; rewrite Z.compare_refl, Pos.compare_cont_refl; reflexivity.
Qed.

Lemma is_nan_false (x : float) : is_nan x = false -> Prim2SF x <> S754_nan.
Proof. rewrite is_nan_spec. intros H Hn. rewrite Hn in H. discriminate H. Qed.

Lemma SFcompare_some (x y : spec_float) :
  x <> S754_nan -> y <> S754_nan -> exists c, SFcompare x y = Some c.
Proof.
  intros Hx Hy. destruct x, y; try contradiction; cbn; eexists; reflexivity.
Qed.

(** Numbers that are not [NaN] are comparable: not below means at least. *)
Lemma not_ltb_leb (x y : float) :
  is_nan x = false -> is_nan y = false -> (y <? x) = false -> (x <=? y) = true.
Proof.
  intros Hx Hy. rewrite ltb_spec, leb_spec. unfold SFltb, SFleb.
  rewrite (SFcompare_antisym (Prim2SF x) (Prim2SF y)).
  destruct (SFcompare_some _ _ (is_nan_false x Hx) (is_nan_false y Hy)) as [c ->].
  destruct c; cbn; intros H; (reflexivity || discriminate H).
Qed.

Lemma ltb_leb (x y : float) : (x <? y) = true -> (x <=? y) = true.
Proof.
  rewrite ltb_spec, leb_spec. unfold SFltb, SFleb.
  destruct (SFcompare (Prim2SF x) (Prim2SF y)) as [[] |]; intros H;
    (reflexivity || discriminate H).
Qed.

Lemma leb_refl (x : float) : is_nan x = false -> (x <=? x) = true.
Proof.
  intros Hx. apply not_ltb_leb; try assumption.
  rewrite ltb_spec. unfold SFltb.
  pose proof (SFcompare_antisym (Prim2SF x) (Prim2SF x)) as H.
  destruct (SFcompare (Prim2SF x) (Prim2SF x)) as [[] |]; cbn in H;
    (reflexivity || discriminate H).
Qed.


Lemma Math_max_lower (x : float) :
  is_nan x = false ->
  is_nan (Math_max x 0.1) = false /\ (0.1 <=? Math_max x 0.1) = true.
Proof.
  intros Hx. unfold Math_max. rewrite Hx.
  change (is_nan 0.1) with false. change (isPositiveZero 0.1) with false.
  rewrite andb_false_r. cbn [orb].
  destruct (x <? 0.1) eqn:Hlt.
  - split; reflexivity.
  - split; [exact Hx |].
    apply not_ltb_leb; [reflexivity | exact Hx | exact Hlt].
Qed.

Lemma Math_min_upper (m : float) :
  is_nan m = false -> (0.1 <=? m) = true ->
  (0.1 <=? Math_min m 1) = true /\ (Math_min m 1 <=? 1) = true.
Proof.
  intros Hm Hlow. unfold Math_min. rewrite Hm.
  change (is_nan 1) with false. change (isNegativeZero 1) with false.
  rewrite andb_false_r. cbn [orb].
  destruct (1 <? m) eqn:Hlt.
  - split; reflexivity.
  - split; [exact Hlow |].
    apply not_ltb_leb; [exact Hm | reflexivity | exact Hlt].
Qed.

(** X1.  [Bulb]: for every brightness that is a number (not [NaN]) the
    opacity of the glow is between 0.1 and 1, in binary64 and with the
    infinities included.  (For [NaN] the opacity is [NaN].) *)
Theorem bulb_glow_range (brightness : float) :
  is_nan brightness = false ->
  (0.1 <=? glowOpacity brightness) = true /\
  (glowOpacity brightness <=? 1) = true.
Proof.
  intros Hb. unfold glowOpacity.
  destruct (Math_max_lower brightness Hb) as [Hm Hlow].
  exact (Math_min_upper _ Hm Hlow).
Qed.

(** X32.  [Bulb]: the clamp does not hide a brightness that is not a
    number: [Math.max] and [Math.min] pass a [NaN] on, and the opacity of
    the glow is [NaN]. *)
Theorem bulb_glow_nan (brightness : float) :
  is_nan brightness = true -> glowOpacity brightness = nan.
Proof.
  intros Hb. unfold glowOpacity, Math_max. rewrite Hb. reflexivity.
Qed.

End Binary64Facts.

(** ** Binary64: operations with zero, one and the infinities *)

Section Binary64Arithmetic.

Import Binary64.
Local Open Scope float_scope.














End Binary64Arithmetic.

(** ** The physics calculations in binary64 *)

Section Binary64Physics.

Import Binary64.
Local Open Scope float_scope.

Variable Math_exp : float -> float.

(** C3.  rc-delay circuit, switch closed, voltage, resistance and
    capacitance above zero, elapsed time [t >= 0], every number a binary64
    value: the current is [(voltage / R) * Math.exp(-t / tau)] with
    [R = resistance1], [C = capacitance * 1e-6], [tau = R * C], the first
    brightness is [current * 5], and the capacitor voltage shown is
    [voltage * (1 - Math.exp(-t / tau'))] with the label's own
    [tau' = resistance1 * capacitance * 1e-6].  For 10 V, 1000 ohm and
    100 microfarad at 0.1 s both time constants are 0.09999999999999999,
    the exponent is -1.0000000000000002, the current is
    [0.01 * Math.exp(-1.0000000000000002)] and the capacitor voltage is
    [10 * (1 - Math.exp(-1.0000000000000002))]. *)
Theorem rc_delay_closed_law (s : CircuitState) (t : float) :
  isSwitchClosed s = true ->
  (0 <? voltage s) = true -> (0 <? resistance1 s) = true ->
  (0 <? capacitance s) = true -> (0 <=? t) = true ->
  let p := physics_calculations Math_exp rc_delay s t in
  let tau := resistance1 s * (capacitance s * 1e-6) in
  let tau' := resistance1 s * capacitance s * 1e-6 in
  (current p = (voltage s / resistance1 s) * Math_exp ((- t) / tau) /\
   bulb1Brightness p = current p * 5 /\
   capacitorVoltage Math_exp s t = voltage s * (1 - Math_exp ((- t) / tau'))) /\
  (voltage s = 10 -> resistance1 s = 1000 -> capacitance s = 100 -> t = 0.1 ->
   tau = 0.09999999999999999 /\ tau' = 0.09999999999999999 /\
   (- t) / tau = -1.0000000000000002 /\
   current p = 0.01 * Math_exp (-1.0000000000000002) /\
   capacitorVoltage Math_exp s t = 10 * (1 - Math_exp (-1.0000000000000002))).
Proof.
  intros Hclosed HV HR HC Ht p tau tau'.
  subst p tau tau'. unfold physics_calculations, capacitorVoltage.
  rewrite Hclosed. cbn [current bulb1Brightness].
  split.
  - repeat split; reflexivity.
  - intros -> -> -> ->. repeat split; reflexivity.
Qed.





(** X7.  The capacitor label does not read the switch: two
    configurations with the same voltage, resistance and capacitance show
    the same capacitor voltage whatever their switches, also while the open
    switch makes the current 0. *)
Theorem capacitor_label_ignores_switch
    (mode : CircuitMode) (s s' : CircuitState) (t : float) :
  voltage s' = voltage s -> resistance1 s' = resistance1 s ->
  capacitance s' = capacitance s ->
  isSwitchClosed s' = false ->
  capacitorVoltage Math_exp s' t = capacitorVoltage Math_exp s t /\
  current (physics_calculations Math_exp mode s' t) = 0.
Proof.
  intros HV HR HC Hopen. unfold capacitorVoltage, physics_calculations.
  rewrite HV, HR, HC, Hopen. split; reflexivity.
Qed.

End Binary64Physics.

(** ** Binary64: an addition of positive numbers does not underflow *)

Section Binary64Rounding.

Import Binary64.
Local Open Scope Z_scope.








End Binary64Rounding.

Section Binary64Sum.

Import Binary64.
Local Open Scope float_scope.



End Binary64Sum.

(** ** Validation at the boundary *)

Section Binary64Validation.

Import Binary64.
Local Open Scope float_scope.


End Binary64Validation.

(** ** The binary64 theorems at sample configurations *)

Section Binary64Samples.

Import Binary64.
Local Open Scope float_scope.


(** The time constant of 1000 ohm and 100 microfarad is not 0.1 and the
    exponent at 0.1 s is not -1; and the time constant of the label is not
    always that of the physics calculations (100 ohm, 100 microfarad). *)
Lemma scenarioC_time_constant_rounded :
  (resistance1 scenarioC * (capacitance scenarioC * 1e-6) =? 0.1) = false /\
  ((- 0.1) / (resistance1 scenarioC * (capacitance scenarioC * 1e-6)) =? - 1)
    = false /\
  (resistance1 hundredOhm * capacitance hundredOhm * 1e-6 =?
   resistance1 hundredOhm * (capacitance hundredOhm * 1e-6)) = false.
Proof. repeat split; reflexivity. Qed.

Lemma rc_delay_closed_law_scenarioC :
  (isSwitchClosed scenarioC = true /\ (0 <? voltage scenarioC) = true /\
   (0 <? resistance1 scenarioC) = true /\ (0 <? capacitance scenarioC) = true /\
   (0 <=? 0.1) = true) /\
  current (physics_calculations standInExp rc_delay scenarioC 0.1) =
    0.01 * standInExp (-1.0000000000000002) /\
  capacitorVoltage standInExp scenarioC 0.1 =
    10 * (1 - standInExp (-1.0000000000000002)).
Proof.
  split; [repeat split; reflexivity |].
  destruct (rc_delay_closed_law standInExp scenarioC 0.1
              eq_refl eq_refl eq_refl eq_refl eq_refl) as [_ Hvalues].
  destruct (Hvalues eq_refl eq_refl eq_refl eq_refl) as (_ & _ & _ & Hc & Hv).
  split; [exact Hc | exact Hv].
Defined.







Lemma bulb_glow_range_samples :
  is_nan infinity = false /\
  (0.1 <=? glowOpacity infinity) = true /\ (glowOpacity infinity <=? 1) = true.
Proof.
  split; [reflexivity |]. exact (bulb_glow_range infinity eq_refl).
Defined.

Lemma bulb_glow_nan_sample :
  is_nan (0 / 0) = true /\ glowOpacity (0 / 0) = nan.
Proof.
  split; [reflexivity |]. exact (bulb_glow_nan (0 / 0) eq_refl).
Defined.


Lemma capacitor_label_ignores_switch_sample :
  capacitorVoltage standInExp scenarioCOpen 0.1 =
  capacitorVoltage standInExp scenarioC 0.1 /\
  current (physics_calculations standInExp rc_delay scenarioCOpen 0.1) = 0.
Proof.
  exact (capacitor_label_ignores_switch standInExp rc_delay
           scenarioC scenarioCOpen 0.1 eq_refl eq_refl eq_refl eq_refl).
Defined.

End Binary64Samples.

(** ** The remainder operator *)

Lemma truncate_nonneg (x : R) :
  0 <= x -> IZR (JS.truncate x) <= x < IZR (JS.truncate x) + 1.
Proof.
  intros Hx. unfold JS.truncate.
  destruct (Rle_dec 0 x) as [_ | Hn]; [| contradiction].
  pose proof (base_Int_part x). lra.
Qed.

Lemma truncate_neg (x : R) :
  x < 0 -> IZR (JS.truncate x) - 1 < x <= IZR (JS.truncate x).
Proof.
  intros Hx. unfold JS.truncate.
  destruct (Rle_dec 0 x) as [Hp | _]; [lra |].
  rewrite opp_IZR.
  pose proof (base_Int_part (- x)). lra.
Qed.

Lemma truncate_0 : JS.truncate 0 = 0%Z.
Proof.
  pose proof (truncate_nonneg 0 (Rle_refl 0)) as [Hle Hlt].
  assert (H1 : (JS.truncate 0 <= 0)%Z) by (apply le_IZR; exact Hle).
  assert (H2 : (-1 < JS.truncate 0)%Z) by (apply lt_IZR; lra).
  lia.
Qed.

(** The quotient is fixed by the two-sided bound. *)
Lemma truncate_unique (x : R) (z : Z) :
  (0 <= x -> IZR z <= x < IZR z + 1) ->
  (x < 0 -> IZR z - 1 < x <= IZR z) ->
  JS.truncate x = z.
Proof.
  intros Hpos Hneg.
  destruct (Rle_lt_dec 0 x) as [Hx | Hx].
  - pose proof (truncate_nonneg x Hx). specialize (Hpos Hx).
    assert ((JS.truncate x < z + 1)%Z) by (apply lt_IZR; rewrite plus_IZR; lra).
    assert ((z < JS.truncate x + 1)%Z) by (apply lt_IZR; rewrite plus_IZR; lra).
    lia.
  - pose proof (truncate_neg x Hx). specialize (Hneg Hx).
    assert ((JS.truncate x - 1 < z)%Z) by (apply lt_IZR; rewrite minus_IZR; lra).
    assert ((z - 1 < JS.truncate x)%Z) by (apply lt_IZR; rewrite minus_IZR; lra).
    lia.
Qed.

(** A non-negative dividend leaves a remainder in [[0, d)]. *)
Lemma rem_nonneg (n d : R) :
  0 < d -> 0 <= n -> 0 <= JS.rem n d < d.
Proof.
  intros Hd Hn. unfold JS.rem.
  assert (Hq : 0 <= n / d).
  { unfold Rdiv. apply Rmult_le_pos; [exact Hn |].
    apply Rlt_le, Rinv_0_lt_compat; exact Hd. }
  pose proof (truncate_nonneg (n / d) Hq) as [Hlo Hhi].
  assert (Hnd : n = n / d * d) by (field; lra).
  split; nra.
Qed.

(** A non-positive dividend leaves a remainder in [(-d, 0]]. *)
Lemma rem_nonpos (n d : R) :
  0 < d -> n <= 0 -> - d < JS.rem n d <= 0.
Proof.
  intros Hd Hn. unfold JS.rem.
  destruct (Req_dec n 0) as [-> | Hn0].
  - unfold Rdiv. rewrite Rmult_0_l, truncate_0. lra.
  - assert (Hq : n / d < 0).
    { pose proof (Rinv_0_lt_compat d Hd) as Hinv.
      unfold Rdiv. nra. }
    pose proof (truncate_neg (n / d) Hq) as [Hlo Hhi].
    assert (Hnd : n = n / d * d) by (field; lra).
    split; nra.
Qed.

(** Whatever the dividend, the remainder is smaller than the divisor. *)
Lemma rem_abs_lt (n d : R) : 0 < d -> - d < JS.rem n d < d.
Proof.
  intros Hd.
  destruct (Rle_lt_dec 0 n) as [Hn | Hn].
  - pose proof (rem_nonneg n d Hd Hn). lra.
  - pose proof (rem_nonpos n d Hd (Rlt_le _ _ Hn)). lra.
Qed.

(** The value of a remainder, from its quotient. *)
Lemma rem_eq (n d : R) (q : Z) :
  (0 <= n / d -> IZR q <= n / d < IZR q + 1) ->
  (n / d < 0 -> IZR q - 1 < n / d <= IZR q) ->
  JS.rem n d = n - d * IZR q.
Proof.
  intros Hpos Hneg. unfold JS.rem.
  rewrite (truncate_unique (n / d) q Hpos Hneg). reflexivity.
Qed.

Example rem_7_5_by_2 : JS.rem 7.5 2 = 1.5.
Proof. rewrite (rem_eq _ _ 3); lra. Qed.

Example rem_minus_7_5_by_2 : JS.rem (-7.5) 2 = -1.5.
Proof. rewrite (rem_eq _ _ (-3)); lra. Qed.

Example rem_minus_1005_by_1000 : JS.rem (-1005) 1000 = -5.
Proof. rewrite (rem_eq _ _ (-1)); lra. Qed.

Example rem_minus_1000_by_1000 : JS.rem (-1000) 1000 = 0.
Proof. rewrite (rem_eq _ _ (-1)); lra. Qed.

(** ** The open switch *)

(** C4.  Whatever the mode, the configuration and the elapsed time, an open
    switch leaves the current and both brightness values at 0. *)
Theorem open_switch_zero (m : CircuitMode) (s : CircuitState) (t : R) :
  isSwitchClosed s = false ->
  let p := physics_calculations m s t in
  current p = 0 /\ bulb1Brightness p = 0 /\ bulb2Brightness p = 0.
Proof.
  intros Hopen p. subst p.
  unfold physics_calculations. rewrite Hopen.
  repeat split; reflexivity.
Qed.

(** ** The animation loop *)

(** C6.  On a frame the speed is [min (current * 2) 10] with the switch
    closed and 0 with the switch open, and the offset moves by that speed;
    so the speed never exceeds 10, however large the current. *)
Theorem animate_speed_capped (current : R) :
  animate_speed true current = Rmin (current * 2) 10 /\
  animate_speed false current = 0 /\
  (forall isSwitchClosed : bool, animate_speed isSwitchClosed current <= 10) /\
  (forall (isSwitchClosed : bool) (offset : R),
     animate isSwitchClosed current offset =
     JS.rem (offset - animate_speed isSwitchClosed current) 1000).
Proof.
  repeat split.
  intros [|]; cbn.
  - apply Rmin_r.
  - lra.
Qed.

(** A current that is not negative gives a speed between 0 and 10. *)
Lemma animate_speed_range (isSwitchClosed : bool) (current : R) :
  0 <= current -> 0 <= animate_speed isSwitchClosed current <= 10.
Proof.
  intros Hc. destruct isSwitchClosed; cbn; [| lra].
  unfold JS.Math_min. split.
  - apply Rmin_glb; lra.
  - apply Rmin_r.
Qed.

(** One update keeps an offset in [(-1000, 0]] there when the speed is not
    negative. *)
Lemma setOffset_update_range (speed prev : R) :
  0 <= speed -> -1000 < prev <= 0 ->
  -1000 < setOffset_update speed prev <= 0.
Proof.
  intros Hs Hp. unfold setOffset_update.
  apply (rem_nonpos (prev - speed) 1000); lra.
Qed.

Lemma offsets_range (speeds : list R) :
  Forall (fun speed => 0 <= speed <= 10) speeds ->
  forall offset : R, -1000 < offset <= 0 ->
  Forall (fun o => -1000 < o <= 0) (offsets speeds offset).
Proof.
  induction 1 as [| speed later Hspeed _ IH]; intros offset Ho; cbn.
  - constructor.
  - assert (Hnext : -1000 < setOffset_update speed offset <= 0)
      by (apply setOffset_update_range; lra).
    constructor; [exact Hnext | apply IH; exact Hnext].
Qed.

(** C9.  From the initial offset 0, with every frame's speed in [[0, 10]],
    the offset after each update lies in [(-1000, 0]], hence strictly
    between -1000 and 1000. *)
Theorem offset_bounded (speeds : list R) :
  Forall (fun speed => 0 <= speed <= 10) speeds ->
  Forall (fun offset => -1000 < offset < 1000 /\ -1000 < offset <= 0)
         (offsets speeds initialOffset).
Proof.
  intros Hspeeds.
  assert (H0 : -1000 < initialOffset <= 0) by (unfold initialOffset; lra).
  pose proof (offsets_range speeds Hspeeds initialOffset H0) as Hrange.
  eapply Forall_impl; [| exact Hrange].
  cbn. intros o Ho. lra.
Qed.

(** Offsets past the period wrap around and keep their sign. *)
Example offsets_wrap_around : offsets [10; 10] (-995) = [-5; -15].
Proof.
  cbn. unfold setOffset_update.
  replace (-995 - 10) with (-1005) by lra.
  rewrite rem_minus_1005_by_1000.
  replace (-5 - 10) with (-15) by lra.
  rewrite (rem_eq _ _ 0); [| lra | lra].
  f_equal. f_equal. lra.
Qed.

(** The speed of the frame that runs under given props. *)
Lemma animate_frame (props : CircuitCanvasProps) (later : list CircuitCanvasProps)
    (offset : R) :
  frames (props :: later) offset =
  frames later
    (setOffset_update
       (animate_speed
          (isSwitchClosed (state props))
          (current (physics_calculations
                      (mode props) (state props) (simTime props))))
       offset).
Proof. reflexivity. Qed.

(** The last element of a list that is not empty. *)
Lemma last_cons_default {A : Type} (l : list A) (x d d' : A) :
  last (x :: l) d = last (x :: l) d'.
Proof.
  revert x. induction l as [| y l IH]; intros x.
  - reflexivity.
  - change (last (y :: l) d = last (y :: l) d'). apply IH.
Qed.

(** The offset a run of frames ends with is the last of the offsets of its
    updates. *)
Lemma frames_offsets (renders : list CircuitCanvasProps) (offset : R) :
  frames renders offset =
  last (offsets
          (map (fun props =>
                  animate_speed
                    (isSwitchClosed (state props))
                    (current (physics_calculations
                                (mode props) (state props) (simTime props))))
               renders)
          offset)
       offset.
Proof.
  revert offset.
  induction renders as [| props later IH]; intros offset.
  - reflexivity.
  - rewrite animate_frame, IH. cbn [map offsets].
    set (next := setOffset_update _ offset).
    destruct later as [| props' later']; [reflexivity |].
    cbn [map offsets].
    change (last (?a :: ?b :: ?l) ?d) with (last (b :: l) d).
    apply last_cons_default.
Qed.

(** ** The theorems at the sample configurations *)

Ltac positive := cbn; lra.

Lemma series_closed_law_scenarioA :
  (isSwitchClosed scenarioA = true /\ 0 < voltage scenarioA /\
   0 < resistance1 scenarioA /\ 0 < resistance2 scenarioA) /\
  current (physics_calculations series scenarioA 0) = 0.03 /\
  bulb1Brightness (physics_calculations series scenarioA 0) = 0.3 /\
  bulb2Brightness (physics_calculations series scenarioA 0) = 0.6.
Proof.
  assert (H1 : isSwitchClosed scenarioA = true) by reflexivity.
  assert (H2 : 0 < voltage scenarioA) by positive.
  assert (H3 : 0 < resistance1 scenarioA) by positive.
  assert (H4 : 0 < resistance2 scenarioA) by positive.
  split; [auto |].
  destruct (series_closed_law scenarioA 0 H1 H2 H3 H4) as [_ Hvalues].
  apply Hvalues; reflexivity.
Defined.

Lemma parallel_closed_law_scenarioB :
  (isSwitchClosed scenarioB = true /\ 0 < voltage scenarioB /\
   0 < resistance1 scenarioB /\ 0 < resistance2 scenarioB) /\
  voltage scenarioB / resistance1 scenarioB = 0.5 /\
  voltage scenarioB / resistance2 scenarioB = 0.25 /\
  current (physics_calculations parallel scenarioB 0) = 0.75 /\
  bulb1Brightness (physics_calculations parallel scenarioB 0) = 0.1 /\
  bulb2Brightness (physics_calculations parallel scenarioB 0) = 0.05.
Proof.
  assert (H1 : isSwitchClosed scenarioB = true) by reflexivity.
  assert (H2 : 0 < voltage scenarioB) by positive.
  assert (H3 : 0 < resistance1 scenarioB) by positive.
  assert (H4 : 0 < resistance2 scenarioB) by positive.
  split; [auto |].
  destruct (parallel_closed_law scenarioB 0 H1 H2 H3 H4) as [_ Hvalues].
  apply Hvalues; reflexivity.
Defined.

Lemma open_switch_zero_scenarioOpen :
  isSwitchClosed scenarioOpen = false /\
  current (physics_calculations rc_delay scenarioOpen 0.1) = 0 /\
  bulb1Brightness (physics_calculations rc_delay scenarioOpen 0.1) = 0 /\
  bulb2Brightness (physics_calculations rc_delay scenarioOpen 0.1) = 0.
Proof.
  split; [reflexivity |].
  exact (open_switch_zero rc_delay scenarioOpen 0.1 eq_refl).
Defined.

Lemma offset_bounded_three_frames :
  Forall (fun speed => 0 <= speed <= 10) [10; 0; 0.06] /\
  Forall (fun offset => -1000 < offset < 1000 /\ -1000 < offset <= 0)
         (offsets [10; 0; 0.06] initialOffset).
Proof.
  assert (Hspeeds : Forall (fun speed => 0 <= speed <= 10) [10; 0; 0.06])
    by (repeat constructor; lra).
  split; [exact Hspeeds |].
  exact (offset_bounded [10; 0; 0.06] Hspeeds).
Defined.

(** ** Further properties of the circuit drawing *)

(** X2.  With the switch open the bulb is not dark: in every mode its glow
    is drawn with the least opacity, 0.1. *)
Theorem open_switch_glow (props : CircuitCanvasProps) (offset : R) :
  isSwitchClosed (state props) = false ->
  bulbGlow (render props offset) = 0.1.
Proof.
  destruct props as [m s t]. cbn. intros Hopen.
  unfold render. cbn. unfold physics_calculations. rewrite Hopen.
  assert (H : glowOpacity 0 = 0.1).
  { unfold glowOpacity, JS.Math_min, JS.Math_max.
    rewrite Rmax_right by lra. rewrite Rmin_left by lra. reflexivity. }
  destruct m; cbn; exact H.
Qed.

(** *** The animation loop, continued *)

(** A dividend smaller than the divisor is its own remainder. *)
Lemma rem_small (n d : R) : 0 < d -> - d < n < d -> JS.rem n d = n.
Proof.
  intros Hd Hn.
  assert (Hinv : 0 < / d) by (apply Rinv_0_lt_compat; exact Hd).
  assert (Hq1 : n / d < 1).
  { apply (Rmult_lt_reg_r d); [exact Hd |].
    replace (n / d * d) with n by (field; lra). lra. }
  assert (Hq2 : -1 < n / d).
  { apply (Rmult_lt_reg_r d); [exact Hd |].
    replace (n / d * d) with n by (field; lra). lra. }
  rewrite (rem_eq n d 0); cbn; lra.
Qed.

(** X9.  While the switch is open the animation stands still: any run of
    frames under props with the switch open leaves an offset between -1000
    and 1000 as it is. *)
Theorem open_switch_freezes_offset
    (renders : list CircuitCanvasProps) (offset : R) :
  Forall (fun props => isSwitchClosed (state props) = false) renders ->
  -1000 < offset < 1000 ->
  frames renders offset = offset.
Proof.
  intros Hopen Ho. induction Hopen as [| props later Hp _ IH]; cbn.
  - reflexivity.
  - unfold animate, animate_speed. rewrite Hp.
    unfold setOffset_update. rewrite Rminus_0_r.
    rewrite rem_small by lra. exact IH.
Qed.

(** X10.  The speed of a frame never decreases when the current grows. *)
Theorem animate_speed_monotone (isSwitchClosed : bool) (current1 current2 : R) :
  current1 <= current2 ->
  animate_speed isSwitchClosed current1 <= animate_speed isSwitchClosed current2.
Proof.
  intros Hle. destruct isSwitchClosed; cbn; [| lra].
  unfold JS.Math_min. apply Rmin_glb.
  - apply Rle_trans with (current1 * 2); [apply Rmin_l | lra].
  - apply Rmin_r.
Qed.

(** ** The fullscreen viewer *)

Section Viewer.

Import FullscreenViewer.

Lemma handle_scale_range (st : State) (e : Event) :
  0.5 <= scale st <= 5 -> 0.5 <= scale (handle st e) <= 5.
Proof.
  intros Hst. destruct e; cbn; try exact Hst; try lra.
  - unfold JS.Math_min, JS.Math_max. split.
    + apply Rmin_glb; [apply Rmax_r | lra].
    + apply Rmin_r.
  - unfold handleMouseDown. destruct (negb (button =? 0)%Z); exact Hst.
  - unfold handleMouseMove. destruct (negb (isDragging st)); exact Hst.
Qed.

Lemma run_scale_range (events : list Event) :
  forall st : State,
  0.5 <= scale st <= 5 -> 0.5 <= scale (run events st) <= 5.
Proof.
  induction events as [| e later IH]; intros st Hst; cbn.
  - exact Hst.
  - apply IH, handle_scale_range, Hst.
Qed.

(** X12.  Whatever series of wheel, mouse, reset and open events the
    viewer handles after it is mounted, the zoom scale stays between 0.5
    and 5. *)
Theorem viewer_scale_bounded (events : list Event) :
  0.5 <= scale (run events initial) <= 5.
Proof.
  apply run_scale_range. cbn. lra.
Qed.

Lemma run_app (events1 events2 : list Event) (st : State) :
  run (events1 ++ events2) st = run events2 (run events1 st).
Proof. unfold run. apply fold_left_app. Qed.

Lemma run_moves (moves : list (R * R)) :
  forall st : State,
  isDragging st = true ->
  let st' := run (map (fun p => MouseMove (fst p) (snd p)) moves) st in
  isDragging st' = true /\ dragStart st' = dragStart st /\
  scale st' = scale st.
Proof.
  induction moves as [| [mx my] later IH]; intros st Hdrag; cbn.
  - auto.
  - set (st1 := handleMouseMove mx my st).
    assert (H1 : isDragging st1 = true /\ dragStart st1 = dragStart st /\
                 scale st1 = scale st).
    { subst st1. unfold handleMouseMove. rewrite Hdrag. cbn. auto. }
    destruct H1 as (Hd & Hs & Hsc).
    destruct (IH st1 Hd) as (Hd' & Hs' & Hsc').
    repeat split; [exact Hd' | rewrite <- Hs; exact Hs' | rewrite <- Hsc; exact Hsc'].
Qed.

(** X13.  A drag moves the image by the way the pointer went: after the
    left button is pressed at [(x0, y0)] and the pointer moved, by whatever
    path, to [(x1, y1)], the position is the one before the press plus
    [(x1 - x0, y1 - y0)], and the scale is as before. *)
Theorem viewer_drag_displacement
    (st : State) (x0 y0 x1 y1 : R) (path : list (R * R)) :
  let st' :=
    run (MouseDown 0 x0 y0 ::
         map (fun p => MouseMove (fst p) (snd p)) path ++
         [MouseMove x1 y1]) st in
  x (position st') = x (position st) + (x1 - x0) /\
  y (position st') = y (position st) + (y1 - y0) /\
  scale st' = scale st.
Proof.
  cbn zeta.
  change (run (MouseDown 0 x0 y0 :: ?l) st)
    with (run l (handleMouseDown 0 x0 y0 st)).
  rewrite run_app.
  set (st0 := handleMouseDown 0 x0 y0 st).
  assert (Hd0 : isDragging st0 = true) by reflexivity.
  destruct (run_moves path st0 Hd0) as (Hd & Hs & Hsc).
  set (st1 := run _ st0) in *.
  cbn. unfold handleMouseMove. rewrite Hd. cbn. rewrite Hs, Hsc.
  subst st0. cbn. repeat split; ring.
Qed.

(** X14.  Without a press of the left button the image does not move:
    starting from a state that is not dragging, wheel events, pointer
    moves, releases and presses of other buttons leave the position as it
    is. *)
Theorem viewer_position_needs_drag (events : list Event) (st : State) :
  isDragging st = false ->
  Forall passive events ->
  position (run events st) = position st /\
  isDragging (run events st) = false.
Proof.
  intros Hdrag Hpassive. revert st Hdrag.
  induction Hpassive as [| e later He _ IH]; intros st Hdrag.
  - cbn. auto.
  - change (run (e :: later) st) with (run later (handle st e)).
    assert (H1 : position (handle st e) = position st /\
                 isDragging (handle st e) = false).
    { destruct e; cbn in *; try contradiction; auto.
      - unfold handleMouseDown.
        destruct (Z.eqb_spec button 0) as [Heq | Hne]; [contradiction |].
        cbn. auto.
      - unfold handleMouseMove. rewrite Hdrag. cbn. auto. }
    destruct H1 as [Hpos Hd].
    destruct (IH _ Hd) as [Hpos' Hd'].
    split; [rewrite Hpos'; exact Hpos | exact Hd'].
Qed.

End Viewer.

(** ** The tilt card *)

Section Tilt.

Import TiltCard.

(** X16.  While the pointer is over a card of positive width and height,
    both rotation angles stay between -5 and 5 degrees and both
    percentages of the shine between 25 and 75. *)
Theorem tilt_rotation_bounded
    (rect : DOMRect) (clientX clientY : R) (rotate : Rotate) :
  0 < width rect -> 0 < height rect ->
  left rect <= clientX <= left rect + width rect ->
  top rect <= clientY <= top rect + height rect ->
  let r := handleMouseMove (Some rect) clientX clientY rotate in
  (-5 <= x r <= 5 /\ -5 <= y r <= 5) /\
  (25 <= fst (backgroundPosition r) <= 75 /\
   25 <= snd (backgroundPosition r) <= 75).
Proof.
  intros Hw Hh Hx Hy r.
  assert (Hq : forall c v : R, 0 < c -> 0 <= v <= 2 * c ->
                 -1 <= (v - c) / c <= 1).
  { intros c v Hc Hv.
    assert (Hinv : 0 < / c) by (apply Rinv_0_lt_compat; exact Hc).
    assert (Hc1 : c * / c = 1) by (field; lra).
    unfold Rdiv. split; nra. }
  assert (HX : -1 <= (clientX - left rect - width rect / 2) / (width rect / 2) <= 1)
    by (apply Hq; lra).
  assert (HY : -1 <= (clientY - top rect - height rect / 2) / (height rect / 2) <= 1)
    by (apply Hq; lra).
  subst r. cbn. lra.
Qed.

End Tilt.

(** ** Navigation between the try-on results *)

Section Navigation.

Import App.

Lemma JSString_eqb_eq (a b : JSString.t) :
  JSString.eqb a b = true <-> a = b.
Proof.
  revert b. induction a as [| c a IH]; intros [| d b]; cbn; split;
    try discriminate; try reflexivity.
  - intros H. apply andb_true_iff in H as [Hc Hab].
    apply N.eqb_eq in Hc. apply IH in Hab. subst. reflexivity.
  - intros H. injection H as -> ->.
    rewrite N.eqb_refl. cbn. apply IH. reflexivity.
Qed.

Lemma ViewAngle_eq_dec (a b : ViewAngle) : {a = b} + {a <> b}.
Proof. decide equality. Defined.

(** X17.  The fullscreen navigation never fails: whatever the hooks hold
    and however often it is called, the index it computes is inside
    [VIEW_ANGLES]. *)
Theorem nav_never_throws (directions : list Direction) (h : Hooks) :
  exists h' : Hooks, navigate directions h = JS.Normal h'.
Proof.
  revert h. induction directions as [| direction later IH]; intros h; cbn.
  - exists h. reflexivity.
  - assert (Hstep : exists h1, handleFullscreenNav direction h = JS.Normal h1).
    { unfold handleFullscreenNav.
      destruct (negb (isViewingResults h)); [eexists; reflexivity |].
      destruct (tryOnResults (state h)) as [results |]; [| eexists; reflexivity].
      destruct (fullscreenImage h) as [image |]; [| eexists; reflexivity].
      unfold VIEW_ANGLES. cbn [findIndex].
      destruct (JSString.eqb (url (results front)) image);
        destruct (JSString.eqb (url (results left45)) image);
        destruct (JSString.eqb (url (results right45)) image);
        destruct (JSString.eqb (url (results left90)) image);
        destruct (JSString.eqb (url (results right90)) image);
        destruct (JSString.eqb (url (results back)) image);
        destruct direction; cbn; eexists; reflexivity. }
    destruct Hstep as [h1 ->]. apply IH.
Qed.

(** X18.  After a navigation from one of the results, the angle selected
    in the background and the image shown in fullscreen go together: the
    image is the result of the selected angle. *)
Theorem nav_in_sync (direction : Direction) (h : Hooks) :
  isViewingResults h = true ->
  exists (h' : Hooks) (results : ViewAngle -> ImageAsset),
    handleFullscreenNav direction h = JS.Normal h' /\
    tryOnResults (state h) = Some results /\
    tryOnResults (state h') = Some results /\
    fullscreenImage h' = Some (url (results (viewAngle (state h')))).
Proof.
  intros Hview. unfold handleFullscreenNav. rewrite Hview. cbn [negb].
  unfold isViewingResults in Hview.
  destruct (tryOnResults (state h)) as [results |] eqn:Hres; [| discriminate].
  destruct (fullscreenImage h) as [image |]; [| discriminate].
  apply andb_true_iff in Hview as [_ Hsome].
  unfold VIEW_ANGLES in *. cbn [findIndex existsb] in *.
  destruct (JSString.eqb (url (results front)) image);
    destruct (JSString.eqb (url (results left45)) image);
    destruct (JSString.eqb (url (results right45)) image);
    destruct (JSString.eqb (url (results left90)) image);
    destruct (JSString.eqb (url (results right90)) image);
    destruct (JSString.eqb (url (results back)) image);
    try discriminate Hsome;
    destruct direction; cbn;
    eexists; exists results; repeat split; cbn; exact Hres.
Qed.

Section DistinctResults.

Variable results : ViewAngle -> ImageAsset.
Hypothesis distinct :
  forall a b : ViewAngle, url (results a) = url (results b) -> a = b.
Hypothesis nonempty : forall a : ViewAngle, url (results a) <> [].

Lemma url_eqb (a b : ViewAngle) :
  JSString.eqb (url (results a)) (url (results b)) =
  if ViewAngle_eq_dec a b then true else false.
Proof using distinct.
  destruct (ViewAngle_eq_dec a b) as [-> | Hne].
  - apply JSString_eqb_eq. reflexivity.
  - destruct (JSString.eqb (url (results a)) (url (results b))) eqn:Heq;
      [| reflexivity].
    apply JSString_eqb_eq, distinct in Heq. contradiction.
Qed.

Lemma url_truthy (a : ViewAngle) : JSString.truthy (url (results a)) = true.
Proof using nonempty.
  pose proof (nonempty a). destruct (url (results a)); [contradiction | reflexivity].
Qed.

(** From the result of an angle the navigation goes to the result of its
    neighbour. *)
Lemma nav_neighbour (direction : Direction) (h : Hooks) (a : ViewAngle) :
  tryOnResults (state h) = Some results ->
  fullscreenImage h = Some (url (results a)) ->
  handleFullscreenNav direction h =
  JS.Normal {| state := setViewAngle (neighbour direction a) (state h);
               fullscreenImage :=
                 Some (url (results (neighbour direction a))) |}.
Proof using distinct nonempty.
  intros Hres Himg.
  unfold handleFullscreenNav, isViewingResults.
  rewrite Hres, Himg, url_truthy.
  unfold VIEW_ANGLES. cbn [findIndex existsb].
  rewrite !url_eqb.
  destruct a, direction; reflexivity.
Qed.

End DistinctResults.

End Navigation.

Section NavigationRoundTrip.

Import App.

Variable h : Hooks.
Variable results : ViewAngle -> ImageAsset.
Variable a : ViewAngle.
Hypothesis has_results : tryOnResults (state h) = Some results.
Hypothesis distinct :
  forall a b : ViewAngle, url (results a) = url (results b) -> a = b.
Hypothesis nonempty : forall a : ViewAngle, url (results a) <> [].
Hypothesis shown : fullscreenImage h = Some (url (results a)).

(** X19.  With six results whose URLs are not empty and differ from each
    other, going right and then left from a result shows another result in
    between and ends at the result it started from, with its angle
    selected. *)
Theorem nav_right_then_left :
  exists h1 h2 : Hooks,
    handleFullscreenNav right h = JS.Normal h1 /\
    handleFullscreenNav left h1 = JS.Normal h2 /\
    fullscreenImage h1 <> fullscreenImage h /\
    fullscreenImage h2 = fullscreenImage h /\
    viewAngle (state h2) = a.
Proof using has_results distinct nonempty shown.
  eexists. eexists.
  split; [apply (nav_neighbour results distinct nonempty right h a);
          assumption |].
  split; [apply (nav_neighbour results distinct nonempty left _ (neighbour right a));
          [exact has_results | reflexivity] |].
  rewrite shown. cbn.
  split; [| split].
  - intros Heq. injection Heq as Heq. apply distinct in Heq.
    destruct a; discriminate Heq.
  - destruct a; reflexivity.
  - destruct a; reflexivity.
Qed.

Lemma navigate_right (n : nat) :
  forall (h0 : Hooks) (b : ViewAngle),
  tryOnResults (state h0) = Some results ->
  fullscreenImage h0 = Some (url (results b)) ->
  exists h' : Hooks,
    navigate (repeat right n) h0 = JS.Normal h' /\
    tryOnResults (state h') = Some results /\
    fullscreenImage h' =
      Some (url (results (Nat.iter n (neighbour right) b))) /\
    (n <> 0%nat -> viewAngle (state h') = Nat.iter n (neighbour right) b).
Proof using distinct nonempty.
  induction n as [| n IH]; intros h0 b Hres Himg.
  - exists h0. cbn. repeat split; try assumption. intros Hn. contradiction.
  - cbn [repeat navigate].
    rewrite (nav_neighbour results distinct nonempty right h0 b Hres Himg).
    set (h1 := {| state := setViewAngle (neighbour right b) (state h0);
                  fullscreenImage := Some (url (results (neighbour right b))) |}).
    assert (Hres1 : tryOnResults (state h1) = Some results) by exact Hres.
    destruct (IH h1 (neighbour right b) Hres1 eq_refl)
      as (h' & Hnav & Hr & Hi & Hv).
    exists h'.
    assert (Hiter : forall k c, Nat.iter k (neighbour right) (neighbour right c) =
                            Nat.iter (S k) (neighbour right) c).
    { intros k c. symmetry. apply Nat.iter_succ_r. }
    rewrite Hiter in Hi, Hv.
    repeat split; try assumption.
    intros _. destruct n as [| n'].
    + cbn in Hnav. injection Hnav as <-. reflexivity.
    + apply Hv. discriminate.
Qed.

(** X20.  With six results whose URLs are not empty and differ from each
    other, going right six times comes back to the result it started from,
    with its angle selected, and fewer steps (one to five) end at another
    result. *)
Theorem nav_full_circle :
  (exists h' : Hooks,
     navigate (repeat right 6) h = JS.Normal h' /\
     fullscreenImage h' = fullscreenImage h /\
     viewAngle (state h') = a) /\
  (forall (n : nat) (h' : Hooks),
     (0 < n < 6)%nat ->
     navigate (repeat right n) h = JS.Normal h' ->
     fullscreenImage h' <> fullscreenImage h).
Proof using has_results distinct nonempty shown.
  split.
  - destruct (navigate_right 6 h a has_results shown) as (h' & Hnav & _ & Hi & Hv).
    exists h'. split; [exact Hnav |]. rewrite shown.
    split.
    + rewrite Hi. destruct a; reflexivity.
    + rewrite Hv by discriminate. destruct a; reflexivity.
  - intros n h' Hn Hnav.
    destruct (navigate_right n h a has_results shown) as (h1 & Hnav1 & _ & Hi & _).
    rewrite Hnav in Hnav1. injection Hnav1 as <-.
    rewrite Hi, shown. intros Heq. injection Heq as Heq.
    apply distinct in Heq.
    assert (Hcases : n = 1%nat \/ n = 2%nat \/ n = 3%nat \/ n = 4%nat \/ n = 5%nat)
      by lia.
    destruct Hcases as [-> | [-> | [-> | [-> | ->]]]];
      destruct a; discriminate Heq.
Qed.

End NavigationRoundTrip.

(** ** The image service *)

Section Service.

Import geminiService.

Lemma strip_prefix_app (p s : JSString.t) :
  JSString.strip_prefix p (p ++ s) = Some s.
Proof.
  induction p as [| c p IH]; cbn; [reflexivity |].
  rewrite N.eqb_refl. exact IH.
Qed.

Lemma strip_prefix_Some (p s r : JSString.t) :
  JSString.strip_prefix p s = Some r -> s = p ++ r.
Proof.
  revert s. induction p as [| c p IH]; intros s H; cbn in *.
  - injection H as ->. reflexivity.
  - destruct s as [| d s]; [discriminate |].
    destruct (N.eqb_spec c d) as [-> | _]; [| discriminate].
    rewrite (IH s H). reflexivity.
Qed.

Lemma strip_alternative_Some (alts : list JSString.t) (rest r : JSString.t) :
  strip_alternative alts rest = Some r ->
  exists alt, In alt alts /\ rest = alt ++ JSString.lit ";base64," ++ r.
Proof.
  induction alts as [| alt others IH]; cbn [strip_alternative In];
    [discriminate |].
  destruct (JSString.strip_prefix (alt ++ JSString.lit ";base64,") rest)
    as [payload |] eqn:Hstrip.
  - intros H. injection H as ->. exists alt. split; [left; reflexivity |].
    apply strip_prefix_Some in Hstrip. rewrite Hstrip, <- app_assoc.
    reflexivity.
  - intros H. destruct (IH H) as (alt' & Hin & Heq).
    exists alt'. split; [right; exact Hin | exact Heq].
Qed.

Lemma strip_alternative_match (ext payload : JSString.t) :
  In ext alternatives ->
  strip_alternative alternatives
    (ext ++ JSString.lit ";base64," ++ payload) = Some payload.
Proof.
  unfold alternatives. cbn [map In].
  intros [<- | [<- | [<- | [<- | []]]]]; reflexivity.
Qed.

(** X21.  [cleanBase64] gives back the bare data of a data URL of one of
    the image types png, jpeg, jpg and webp, whatever the data. *)
Theorem cleanBase64_strips_prefix (ext payload : JSString.t) :
  In ext alternatives ->
  cleanBase64 (JSString.lit "data:image/" ++ ext ++
               JSString.lit ";base64," ++ payload) = payload.
Proof.
  intros Hin. unfold cleanBase64.
  rewrite strip_prefix_app.
  rewrite (strip_alternative_match ext payload Hin).
  reflexivity.
Qed.

(** X22.  [cleanBase64] removes nothing else: its result is either the
    string it was given, or that string without a prefix
    [data:image/...;base64,] of one of the four image types. *)
Theorem cleanBase64_only_prefix (data : JSString.t) :
  cleanBase64 data = data \/
  exists ext : JSString.t,
    In ext alternatives /\
    data = JSString.lit "data:image/" ++ ext ++
           JSString.lit ";base64," ++ cleanBase64 data.
Proof.
  unfold cleanBase64.
  destruct (JSString.strip_prefix (JSString.lit "data:image/") data)
    as [rest |] eqn:Hprefix; [| left; reflexivity].
  destruct (strip_alternative alternatives rest) as [payload |] eqn:Halt;
    [| left; reflexivity].
  right.
  destruct (strip_alternative_Some _ _ _ Halt) as (ext & Hin & Hrest).
  exists ext. split; [exact Hin |].
  apply strip_prefix_Some in Hprefix. rewrite Hprefix, Hrest. reflexivity.
Qed.

(** X23.  The image made of a response part and [cleanBase64] undo each
    other: when the part carries data that is not empty and its mime type
    is missing or one of image/png, image/jpeg, image/jpg and image/webp,
    cleaning the data URL returned for it gives back the data. *)
Theorem image_url_round_trip (part : Part) (inline : InlineData)
    (bytes : JSString.t) :
  inlineData part = Some inline ->
  data inline = Some bytes ->
  bytes <> [] ->
  (mimeType inline = None \/
   exists ext, In ext alternatives /\
               mimeType inline = Some (JSString.lit "image/" ++ ext)) ->
  exists image : JSString.t,
    imageOfPart part = Some image /\ cleanBase64 image = bytes.
Proof.
  intros Hinline Hdata Hbytes Hmime.
  unfold imageOfPart. rewrite Hinline, Hdata.
  assert (Htruthy : JSString.truthy bytes = true)
    by (destruct bytes; [contradiction | reflexivity]).
  rewrite Htruthy.
  eexists. split; [reflexivity |].
  destruct Hmime as [-> | (ext & Hin & ->)].
  - change (cleanBase64 (JSString.lit "data:image/" ++ JSString.lit "png" ++
                         JSString.lit ";base64," ++ bytes) = bytes).
    unfold cleanBase64.
    rewrite strip_prefix_app, strip_alternative_match;
      [reflexivity | left; reflexivity].
  - assert (Hm : JSString.truthy (JSString.lit "image/" ++ ext) = true)
      by reflexivity.
    rewrite Hm.
    replace (JSString.lit "data:" ++ (JSString.lit "image/" ++ ext) ++
             JSString.lit ";base64," ++ bytes)
      with (JSString.lit "data:image/" ++ ext ++
            JSString.lit ";base64," ++ bytes) by reflexivity.
    unfold cleanBase64.
    rewrite strip_prefix_app, (strip_alternative_match ext bytes Hin).
    reflexivity.
Qed.

Lemma imageOfPart_None (part : Part) :
  carriesNoImage part -> imageOfPart part = None.
Proof.
  unfold carriesNoImage, imageOfPart.
  destruct (inlineData part) as [inline |]; [| reflexivity].
  intros [-> | ->]; reflexivity.
Qed.

Lemma imageOfParts_None (ps : list Part) :
  Forall carriesNoImage ps -> imageOfParts ps = None.
Proof.
  induction 1 as [| part rest Hpart _ IH]; cbn; [reflexivity |].
  rewrite (imageOfPart_None part Hpart). exact IH.
Qed.

Lemma imageOfCandidates_None (cs : list Candidate) :
  Forall (fun candidate =>
            exists ps, partsOf candidate = Some ps /\
                       Forall carriesNoImage ps) cs ->
  imageOfCandidates cs = JS.Normal None.
Proof.
  induction 1 as [| candidate rest (ps & Hps & Hnone) _ IH]; cbn;
    [reflexivity |].
  rewrite Hps, (imageOfParts_None _ Hnone). exact IH.
Qed.

(** X24.  When the model answers without image data (no candidates at
    all, or candidates that all have content and parts but only parts
    without inline data or with empty data), [generateImageAsset] fails
    with "No image generated". *)
Theorem generateImageAsset_no_image
    (apiKey : JSString.t)
    (generateContent : Request unit -> JS.completion Response)
    (prompt : JSString.t) (response : Response) :
  apiKey <> [] ->
  (forall request, generateContent request = JS.Normal response) ->
  (forall cs, candidates response = Some cs ->
     Forall (fun candidate =>
               exists ps, partsOf candidate = Some ps /\
                          Forall carriesNoImage ps) cs) ->
  generateImageAsset (Some apiKey) generateContent prompt =
  JS.Throw "No image generated".
Proof.
  intros Hkey Hgen Hnone. unfold generateImageAsset, getClient.
  assert (Htruthy : JSString.truthy apiKey = true)
    by (destruct apiKey; [contradiction | reflexivity]).
  rewrite Htruthy, Hgen.
  destruct (candidates response) as [cs |].
  - rewrite (imageOfCandidates_None cs (Hnone cs eq_refl)). reflexivity.
  - reflexivity.
Qed.

(** X25.  [generateImageAsset] returns the first image in the order of the
    response: when the candidates before have content and parts but no
    image data, and so have the parts before in the same candidate, the
    result is the data URL of that part. *)
Theorem generateImageAsset_first_image
    (apiKey : JSString.t)
    (generateContent : Request unit -> JS.completion Response)
    (prompt : JSString.t) (response : Response)
    (before after : list Candidate) (candidate : Candidate)
    (partsBefore partsAfter : list Part) (part : Part) (image : JSString.t) :
  apiKey <> [] ->
  (forall request, generateContent request = JS.Normal response) ->
  candidates response = Some (before ++ candidate :: after) ->
  Forall (fun c => exists ps, partsOf c = Some ps /\
                              Forall carriesNoImage ps) before ->
  partsOf candidate = Some (partsBefore ++ part :: partsAfter) ->
  Forall carriesNoImage partsBefore ->
  imageOfPart part = Some image ->
  generateImageAsset (Some apiKey) generateContent prompt = JS.Normal image.
Proof.
  intros Hkey Hgen Hcs Hbefore Hparts HpartsBefore Himage.
  unfold generateImageAsset, getClient.
  assert (Htruthy : JSString.truthy apiKey = true)
    by (destruct apiKey; [contradiction | reflexivity]).
  rewrite Htruthy, Hgen, Hcs.
  assert (Hp : imageOfParts (partsBefore ++ part :: partsAfter) = Some image).
  { clear Hparts.
    induction HpartsBefore as [| p rest Hp _ IH]; cbn.
    - rewrite Himage. reflexivity.
    - rewrite (imageOfPart_None p Hp). exact IH. }
  assert (Hc : imageOfCandidates (before ++ candidate :: after) =
               JS.Normal (Some image)).
  { clear Hcs. induction Hbefore as [| c rest (ps & Hps & Hnone) _ IH]; cbn.
    - rewrite Hparts, Hp. reflexivity.
    - rewrite Hps, (imageOfParts_None _ Hnone). exact IH. }
  rewrite Hc. reflexivity.
Qed.

(** X31.  A candidate that comes without content, or whose content comes
    without parts, makes [generateImageAsset] fail with a [TypeError] when
    the loop reaches it, that is, when the candidates before it have
    content and parts but no image data; an image in a later candidate is
    not looked at. *)
Theorem generateImageAsset_broken_candidate
    (apiKey : JSString.t)
    (generateContent : Request unit -> JS.completion Response)
    (prompt : JSString.t) (response : Response)
    (before after : list Candidate) (candidate : Candidate) :
  apiKey <> [] ->
  (forall request, generateContent request = JS.Normal response) ->
  candidates response = Some (before ++ candidate :: after) ->
  Forall (fun c => exists ps, partsOf c = Some ps /\
                              Forall carriesNoImage ps) before ->
  partsOf candidate = None ->
  generateImageAsset (Some apiKey) generateContent prompt =
  JS.Throw "TypeError".
Proof.
  intros Hkey Hgen Hcs Hbefore Hbroken.
  unfold generateImageAsset, getClient.
  assert (Htruthy : JSString.truthy apiKey = true)
    by (destruct apiKey; [contradiction | reflexivity]).
  rewrite Htruthy, Hgen, Hcs.
  assert (Hc : imageOfCandidates (before ++ candidate :: after) =
               JS.Throw "TypeError").
  { clear Hcs. induction Hbefore as [| c rest (ps & Hps & Hnone) _ IH]; cbn.
    - rewrite Hbroken. reflexivity.
    - rewrite Hps, (imageOfParts_None _ Hnone). exact IH. }
  rewrite Hc. reflexivity.
Qed.

End Service.

(** ** The chat *)

Section Chat.

Import ChatAssistant.

Lemma dropWhile_all (p : N -> bool) (s : JSString.t) :
  forallb p s = true -> JSString.dropWhile p s = [].
Proof.
  induction s as [| c s IH]; cbn; [reflexivity |].
  intros H. apply andb_true_iff in H as [Hc Hs].
  rewrite Hc. apply IH, Hs.
Qed.

Lemma dropWhile_some (p : N -> bool) (s : JSString.t) :
  forallb p s = false ->
  exists c rest, JSString.dropWhile p s = c :: rest /\ p c = false.
Proof.
  induction s as [| c s IH]; cbn; [discriminate |].
  destruct (p c) eqn:Hc; cbn.
  - exact IH.
  - intros _. exists c, s. split; [reflexivity | exact Hc].
Qed.

Lemma dropWhile_snoc (p : N -> bool) (s : JSString.t) (c : N) :
  p c = false -> JSString.dropWhile p (s ++ [c]) <> [].
Proof.
  intros Hc. induction s as [| d s IH]; cbn.
  - rewrite Hc. discriminate.
  - destruct (p d); [exact IH | discriminate].
Qed.

(** A string trims to the empty string exactly when all its code units are
    white space. *)
Lemma trim_blank (s : JSString.t) :
  JSString.truthy (JSString.trim s) = false <->
  forallb JSString.isWhiteSpace s = true.
Proof.
  unfold JSString.trim. split.
  - intros Hfalsy.
    destruct (forallb JSString.isWhiteSpace s) eqn:Hall; [reflexivity |].
    destruct (dropWhile_some _ _ Hall) as (c & rest & Hdrop & Hc).
    rewrite Hdrop in Hfalsy. cbn [rev] in Hfalsy.
    pose proof (dropWhile_snoc JSString.isWhiteSpace (rev rest) c Hc) as Hne.
    destruct (JSString.dropWhile JSString.isWhiteSpace (rev rest ++ [c]))
      as [| d l] eqn:Hd; [contradiction |].
    cbn [rev] in Hfalsy.
    destruct (rev l ++ [d]) eqn:Hrev; [| discriminate].
    apply app_eq_nil in Hrev as [_ Hnil]. discriminate.
  - intros Hall. rewrite (dropWhile_all _ _ Hall). reflexivity.
Qed.

(** X26.  A send is ignored exactly when a request is under way or the
    input is blank, that is, made of white space only (or empty); a send
    that is ignored changes nothing and asks nothing. *)
Theorem chat_blank_input_ignored (st : State) :
  handleSend_begin st = None <->
  isLoading st = true \/ forallb JSString.isWhiteSpace (input st) = true.
Proof.
  unfold handleSend_begin.
  pose proof (trim_blank (input st)) as Hblank.
  destruct (JSString.truthy (JSString.trim (input st))) eqn:Htrim;
    destruct (isLoading st) eqn:Hload; cbn; split;
    try (intros _; auto; fail); try discriminate.
  - intros [Habs | Hall]; [discriminate |].
    apply Hblank in Hall. discriminate.
  - intros _. right. apply Hblank. reflexivity.
Qed.

(** X27.  The request of a send carries the transcript as it is shown
    after the send, in its order: the messages so far and then, once, the
    new message of the user, with the text as it was typed. *)
Theorem chat_request_is_transcript
    (st st' : State) (message : JSString.t)
    (history : list geminiService.Content) (systemInstruction : JSString.t) :
  handleSend_begin st = Some (st', (message, history)) ->
  message = input st /\
  geminiService.contents
    (geminiService.chatRequest systemInstruction message history) =
  map toContent (messages st').
Proof.
  unfold handleSend_begin.
  destruct (negb (JSString.truthy (JSString.trim (input st))) || isLoading st)%bool;
    [discriminate |].
  intros H. injection H as <- <- <-.
  split; [reflexivity |].
  cbn. rewrite map_app. reflexivity.
Qed.

Lemma takesTurns_snoc (ms : list ChatMessage) (m : ChatMessage) :
  forall first : geminiService.Role,
  takesTurns first ms ->
  role m = (if Nat.even (List.length ms) then first else other first) ->
  takesTurns first (ms ++ [m]).
Proof.
  induction ms as [| m0 ms IH]; intros first Hturns Hrole.
  - cbn in *. split; [exact Hrole | exact I].
  - cbn [takesTurns app] in *.
    destruct Hturns as [H0 Hrest]. split; [exact H0 |].
    apply IH; [exact Hrest |].
    rewrite Hrole. cbn [List.length].
    rewrite Nat.even_succ, <- Nat.negb_even.
    destruct (Nat.even (List.length ms)), first; reflexivity.
Qed.

Lemma handle_settled (c : Chat) (e : Event) :
  settled c -> settled (handle c e).
Proof.
  unfold settled. intros (Hturns & Hparity & Hpending).
  destruct e as [value | | outcome]; cbn [handle].
  - cbn. auto.
  - unfold handleSend_begin.
    destruct (negb (JSString.truthy (JSString.trim (input (hooks c)))) ||
              isLoading (hooks c))%bool eqn:Hguard.
    + auto.
    + apply orb_false_iff in Hguard as [_ Hload].
      rewrite Hload in Hparity. cbn.
      split; [| split].
      * apply takesTurns_snoc; [exact Hturns |]. rewrite Hparity. reflexivity.
      * rewrite length_app. cbn [List.length].
        rewrite Nat.add_1_r, Nat.even_succ, <- Nat.negb_even, Hparity.
        reflexivity.
      * split; [discriminate | reflexivity].
  - destruct (pending c) as [request |] eqn:Hreq.
    + assert (Hload : isLoading (hooks c) = true)
        by (apply Hpending; discriminate).
      rewrite Hload in Hparity. cbn.
      split; [| split].
      * apply takesTurns_snoc; [exact Hturns |]. rewrite Hparity.
        destruct outcome; reflexivity.
      * rewrite length_app. cbn [List.length].
        rewrite Nat.add_1_r, Nat.even_succ, <- Nat.negb_even, Hparity.
        reflexivity.
      * split; [discriminate | intros H; contradiction].
    + rewrite Hreq. auto.
Qed.

(** X28.  Whatever is typed, sent and answered after the chat is mounted,
    the transcript takes turns: it starts with the greeting of the model
    and then alternates between the user and the model, it ends with a
    question of the user exactly while the chat is loading, and the chat is
    loading exactly while a request is under way (so never two at once). *)
Theorem chat_transcript_takes_turns (events : list Event) :
  settled (run events mounted).
Proof.
  assert (Hinit : settled mounted).
  { unfold settled, mounted. cbn. repeat split; try discriminate.
    intros H. contradiction. }
  revert Hinit. generalize mounted.
  induction events as [| e later IH]; intros c Hc.
  - exact Hc.
  - change (run (e :: later) c) with (run later (handle c e)).
    apply IH, handle_settled, Hc.
Qed.

(** X29.  Without an API key (missing or empty) a question is answered by
    the error message: the call fails before it asks the model anything,
    and the chat appends the error text, flagged as an error, and stops
    loading. *)
Theorem chat_missing_key_shows_error
    (API_KEY : option JSString.t)
    (generateContent :
       geminiService.Request JSString.t -> JS.completion geminiService.Response)
    (systemInstruction message : JSString.t)
    (history : list geminiService.Content) (st : State) :
  API_KEY = None \/ API_KEY = Some [] ->
  let outcome :=
    geminiService.sendMessageToGemini
      API_KEY generateContent systemInstruction message history in
  outcome = JS.Throw "API Key not found" /\
  handleSend_settle outcome st =
  {| messages := messages st ++
                 [ {| role := geminiService.model;
                      text := errorText;
                      isError := Some true |} ];
     input := input st;
     isLoading := false |}.
Proof.
  intros [-> | ->]; cbn; split; reflexivity.
Qed.

(** X30.  When the model answers with no text, or with an empty text, the
    chat shows "I couldn't understand that." as an ordinary answer of the
    model, not as an error. *)
Theorem chat_empty_answer_fallback
    (apiKey : JSString.t)
    (generateContent :
       geminiService.Request JSString.t -> JS.completion geminiService.Response)
    (systemInstruction message : JSString.t)
    (history : list geminiService.Content)
    (response : geminiService.Response) (st : State) :
  apiKey <> [] ->
  generateContent
    (geminiService.chatRequest systemInstruction message history) =
    JS.Normal response ->
  geminiService.responseText response = None \/
  geminiService.responseText response = Some [] ->
  handleSend_settle
    (geminiService.sendMessageToGemini
       (Some apiKey) generateContent systemInstruction message history) st =
  {| messages := messages st ++
                 [ {| role := geminiService.model;
                      text := JSString.lit "I couldn't understand that.";
                      isError := None |} ];
     input := input st;
     isLoading := false |}.
Proof.
  intros Hkey Hgen Htext.
  unfold geminiService.sendMessageToGemini, geminiService.getClient.
  assert (Htruthy : JSString.truthy apiKey = true)
    by (destruct apiKey; [contradiction | reflexivity]).
  rewrite Htruthy, Hgen.
  destruct Htext as [-> | ->]; reflexivity.
Qed.

End Chat.

(** ** The further theorems at sample inputs *)

Lemma open_switch_glow_scenarioOpen :
  bulbGlow (render {| mode := rc_delay; state := scenarioOpen; simTime := 0.1 |}
                   initialOffset) = 0.1.
Proof.
  exact (open_switch_glow
           {| mode := rc_delay; state := scenarioOpen; simTime := 0.1 |}
           initialOffset eq_refl).
Defined.

Lemma open_switch_freezes_offset_two_frames :
  frames [ {| mode := rc_delay; state := scenarioOpen; simTime := 0.1 |};
           {| mode := series; state := scenarioOpen; simTime := 0 |} ] (-5) = -5.
Proof.
  assert (Hopen : Forall (fun props => isSwitchClosed (state props) = false)
            [ {| mode := rc_delay; state := scenarioOpen; simTime := 0.1 |};
              {| mode := series; state := scenarioOpen; simTime := 0 |} ])
    by (repeat constructor).
  assert (Ho : -1000 < -5 < 1000) by lra.
  exact (open_switch_freezes_offset _ (-5) Hopen Ho).
Defined.

Lemma animate_speed_monotone_1_7 :
  animate_speed true 1 <= animate_speed true 7.
Proof.
  assert (Hle : 1 <= 7) by lra.
  exact (animate_speed_monotone true 1 7 Hle).
Defined.

Lemma viewer_position_needs_drag_sample :
  FullscreenViewer.position
    (FullscreenViewer.run
       [ FullscreenViewer.Wheel 100; FullscreenViewer.MouseMove 3 4;
         FullscreenViewer.MouseDown 2 1 1; FullscreenViewer.MouseUp ]
       FullscreenViewer.initial) =
  FullscreenViewer.position FullscreenViewer.initial /\
  FullscreenViewer.isDragging
    (FullscreenViewer.run
       [ FullscreenViewer.Wheel 100; FullscreenViewer.MouseMove 3 4;
         FullscreenViewer.MouseDown 2 1 1; FullscreenViewer.MouseUp ]
       FullscreenViewer.initial) = false.
Proof.
  assert (Hpassive : Forall FullscreenViewer.passive
            [ FullscreenViewer.Wheel 100; FullscreenViewer.MouseMove 3 4;
              FullscreenViewer.MouseDown 2 1 1; FullscreenViewer.MouseUp ])
    by (repeat constructor; cbn; discriminate).
  exact (viewer_position_needs_drag _ FullscreenViewer.initial eq_refl Hpassive).
Defined.

Lemma tilt_rotation_bounded_sample :
  let r := TiltCard.handleMouseMove (Some sampleRect) 100 200
             TiltCard.handleMouseLeave in
  (-5 <= TiltCard.x r <= 5 /\ -5 <= TiltCard.y r <= 5) /\
  (25 <= fst (TiltCard.backgroundPosition r) <= 75 /\
   25 <= snd (TiltCard.backgroundPosition r) <= 75).
Proof.
  assert (Hw : 0 < TiltCard.width sampleRect) by (cbn; lra).
  assert (Hh : 0 < TiltCard.height sampleRect) by (cbn; lra).
  assert (Hx : TiltCard.left sampleRect <= 100 <=
               TiltCard.left sampleRect + TiltCard.width sampleRect)
    by (cbn; lra).
  assert (Hy : TiltCard.top sampleRect <= 200 <=
               TiltCard.top sampleRect + TiltCard.height sampleRect)
    by (cbn; lra).
  exact (tilt_rotation_bounded sampleRect 100 200 TiltCard.handleMouseLeave
           Hw Hh Hx Hy).
Defined.

Lemma sampleResults_distinct (a b : App.ViewAngle) :
  App.url (sampleResults a) = App.url (sampleResults b) -> a = b.
Proof. destruct a, b; intros H; (reflexivity || discriminate H). Qed.

Lemma sampleResults_nonempty (a : App.ViewAngle) :
  App.url (sampleResults a) <> [].
Proof. destruct a; discriminate. Qed.

Lemma nav_in_sync_sample :
  exists (h' : App.Hooks) (results : App.ViewAngle -> App.ImageAsset),
    App.handleFullscreenNav App.right sampleHooks = JS.Normal h' /\
    App.tryOnResults (App.state sampleHooks) = Some results /\
    App.tryOnResults (App.state h') = Some results /\
    App.fullscreenImage h' =
      Some (App.url (results (App.viewAngle (App.state h')))).
Proof.
  exact (nav_in_sync App.right sampleHooks eq_refl).
Defined.

Lemma nav_right_then_left_sample :
  exists h1 h2 : App.Hooks,
    App.handleFullscreenNav App.right sampleHooks = JS.Normal h1 /\
    App.handleFullscreenNav App.left h1 = JS.Normal h2 /\
    App.fullscreenImage h1 <> App.fullscreenImage sampleHooks /\
    App.fullscreenImage h2 = App.fullscreenImage sampleHooks /\
    App.viewAngle (App.state h2) = App.front.
Proof.
  exact (nav_right_then_left sampleHooks sampleResults App.front eq_refl
           sampleResults_distinct sampleResults_nonempty eq_refl).
Defined.

Lemma nav_full_circle_sample :
  (exists h' : App.Hooks,
     App.navigate (repeat App.right 6) sampleHooks = JS.Normal h' /\
     App.fullscreenImage h' = App.fullscreenImage sampleHooks /\
     App.viewAngle (App.state h') = App.front) /\
  (forall (n : nat) (h' : App.Hooks),
     (0 < n < 6)%nat ->
     App.navigate (repeat App.right n) sampleHooks = JS.Normal h' ->
     App.fullscreenImage h' <> App.fullscreenImage sampleHooks).
Proof.
  exact (nav_full_circle sampleHooks sampleResults App.front eq_refl
           sampleResults_distinct sampleResults_nonempty eq_refl).
Defined.

Lemma cleanBase64_strips_prefix_jpeg :
  geminiService.cleanBase64 (JSString.lit "data:image/jpeg;base64,AAAA") =
  JSString.lit "AAAA".
Proof.
  assert (Hin : In (JSString.lit "jpeg") geminiService.alternatives)
    by (right; left; reflexivity).
  exact (cleanBase64_strips_prefix (JSString.lit "jpeg") (JSString.lit "AAAA") Hin).
Defined.

Lemma image_url_round_trip_sample :
  exists image : JSString.t,
    geminiService.imageOfPart sampleImagePart = Some image /\
    geminiService.cleanBase64 image = JSString.lit "AAAA".
Proof.
  assert (Hbytes : JSString.lit "AAAA" <> []) by discriminate.
  exact (image_url_round_trip sampleImagePart _ (JSString.lit "AAAA")
           eq_refl eq_refl Hbytes (or_introl eq_refl)).
Defined.

Lemma generateImageAsset_no_image_sample :
  geminiService.generateImageAsset
    (Some (JSString.lit "key")) (fun _ => JS.Normal sampleEmptyResponse)
    (JSString.lit "a coat") = JS.Throw "No image generated".
Proof.
  assert (Hkey : JSString.lit "key" <> []) by discriminate.
  assert (Hnone : forall cs,
            geminiService.candidates sampleEmptyResponse = Some cs ->
            Forall (fun candidate =>
                      exists ps,
                        geminiService.partsOf candidate = Some ps /\
                        Forall geminiService.carriesNoImage ps) cs)
    by (intros cs H; discriminate H).
  exact (generateImageAsset_no_image
           (JSString.lit "key") (fun _ => JS.Normal sampleEmptyResponse)
           (JSString.lit "a coat") sampleEmptyResponse
           Hkey (fun _ => eq_refl) Hnone).
Defined.

Lemma generateImageAsset_first_image_sample :
  geminiService.generateImageAsset
    (Some (JSString.lit "key")) (fun _ => JS.Normal sampleImageResponse)
    (JSString.lit "a coat") =
  JS.Normal (JSString.lit "data:image/png;base64,AAAA").
Proof.
  assert (Hkey : JSString.lit "key" <> []) by discriminate.
  assert (Hbefore : Forall geminiService.carriesNoImage
                      [geminiService.textPart (JSString.lit "ok")])
    by (repeat constructor).
  exact (generateImageAsset_first_image
           (JSString.lit "key") (fun _ => JS.Normal sampleImageResponse)
           (JSString.lit "a coat") sampleImageResponse
           [] [] sampleCandidate
           [geminiService.textPart (JSString.lit "ok")] [] sampleImagePart
           (JSString.lit "data:image/png;base64,AAAA")
           Hkey (fun _ => eq_refl) eq_refl (Forall_nil _) eq_refl Hbefore
           eq_refl).
Defined.

Lemma generateImageAsset_broken_candidate_sample :
  geminiService.generateImageAsset
    (Some (JSString.lit "key")) (fun _ => JS.Normal sampleBrokenResponse)
    (JSString.lit "a coat") = JS.Throw "TypeError".
Proof.
  assert (Hkey : JSString.lit "key" <> []) by discriminate.
  exact (generateImageAsset_broken_candidate
           (JSString.lit "key") (fun _ => JS.Normal sampleBrokenResponse)
           (JSString.lit "a coat") sampleBrokenResponse
           [] [sampleCandidate] {| geminiService.content := None |}
           Hkey (fun _ => eq_refl) eq_refl (Forall_nil _) eq_refl).
Defined.

Lemma chat_request_is_transcript_sample :
  JSString.lit "hi" = ChatAssistant.input sampleChatState /\
  geminiService.contents
    (geminiService.chatRequest []
       (JSString.lit "hi")
       (map ChatAssistant.toContent (ChatAssistant.messages sampleChatState))) =
  map ChatAssistant.toContent
      (ChatAssistant.messages sampleChatState ++
       [ {| ChatAssistant.role := geminiService.user;
            ChatAssistant.text := JSString.lit "hi";
            ChatAssistant.isError := None |} ]).
Proof.
  exact (chat_request_is_transcript
           sampleChatState
           {| ChatAssistant.messages :=
                ChatAssistant.messages sampleChatState ++
                [ {| ChatAssistant.role := geminiService.user;
                     ChatAssistant.text := JSString.lit "hi";
                     ChatAssistant.isError := None |} ];
              ChatAssistant.input := [];
              ChatAssistant.isLoading := true |}
           (JSString.lit "hi")
           (map ChatAssistant.toContent (ChatAssistant.messages sampleChatState))
           [] eq_refl).
Defined.

Lemma chat_missing_key_shows_error_sample :
  geminiService.sendMessageToGemini
    None (fun _ => JS.Normal sampleEmptyResponse) [] (JSString.lit "hi") [] =
  JS.Throw "API Key not found" /\
  ChatAssistant.handleSend_settle
    (geminiService.sendMessageToGemini
       None (fun _ => JS.Normal sampleEmptyResponse) [] (JSString.lit "hi") [])
    sampleChatState =
  {| ChatAssistant.messages :=
       ChatAssistant.messages sampleChatState ++
       [ {| ChatAssistant.role := geminiService.model;
            ChatAssistant.text := ChatAssistant.errorText;
            ChatAssistant.isError := Some true |} ];
     ChatAssistant.input := ChatAssistant.input sampleChatState;
     ChatAssistant.isLoading := false |}.
Proof.
  exact (chat_missing_key_shows_error
           None (fun _ => JS.Normal sampleEmptyResponse) []
           (JSString.lit "hi") [] sampleChatState (or_introl eq_refl)).
Defined.

Lemma chat_empty_answer_fallback_sample :
  ChatAssistant.handleSend_settle
    (geminiService.sendMessageToGemini
       (Some (JSString.lit "key")) (fun _ => JS.Normal sampleEmptyResponse)
       [] (JSString.lit "hi") [])
    sampleChatState =
  {| ChatAssistant.messages :=
       ChatAssistant.messages sampleChatState ++
       [ {| ChatAssistant.role := geminiService.model;
            ChatAssistant.text := JSString.lit "I couldn't understand that.";
            ChatAssistant.isError := None |} ];
     ChatAssistant.input := ChatAssistant.input sampleChatState;
     ChatAssistant.isLoading := false |}.
Proof.
  assert (Hkey : JSString.lit "key" <> []) by discriminate.
  exact (chat_empty_answer_fallback
           (JSString.lit "key") (fun _ => JS.Normal sampleEmptyResponse)
           [] (JSString.lit "hi") [] sampleEmptyResponse sampleChatState
           Hkey eq_refl (or_introl eq_refl)).
Defined.
